(** * togglplanapi: a shallow embedding of the Toggl Plan client

    The Go package [togglplanapi] holds a client value with the user's
    credentials and a cached bearer token, and offers [Request], which
    fetches a token when none is cached ([getToken]), merges the caller's
    headers over a default ([mergeMaps]) and sends the request through a
    retrying HTTP executor ([doRequest], built on go-retryablehttp).

    Go strings are byte sequences and are embedded as [string]; Go [int] and
    [time.Duration] values are embedded as [Z]; a [map[string]string] is a
    [gmap string string]; a Go [error] result is an [option error], with
    [None] for [nil].  The network and the sleeping between attempts are
    explicit state ([World]). *)

From Stdlib Require Import ZArith String Ascii List Lia.
From stdpp Require Import base option strings gmap list pretty.
Import ListNotations.

Local Open Scope Z_scope.

(** ** Errors *)

(** The error values that flow through the package.  [errorString] is what
    [errors.New] builds; [externalError] stands for an error produced outside
    the package (transport, body reader, request builder, JSON decoder),
    identified by its message; [givingUp] is the error go-retryablehttp's
    [Client.Do] builds with [fmt.Errorf] when it has no cause to report
    ("... giving up after %d attempt(s)"), and [givingUpWrap] the one that
    wraps a cause ("... giving up after %d attempt(s): %w"). *)
Inductive error : Type :=
| errorString (msg : string)
| externalError (msg : string)
| givingUp (method url : string) (attempt : nat)
| givingUpWrap (method url : string) (attempt : nat) (cause : error).

(** ** The client *)

(** [type togglPlanApi struct]. *)
Record togglPlanApi : Type := mkTogglPlanApi {
  username : string;
  password : string;
  clientId : string;
  clientSecret : string;
  bearerToken : string
}.

(** [type authDetails struct]; the Go field [Type] is spelled [AuthType]. *)
Record authDetails : Type := mkAuthDetails {
  AuthType : string;
  Credential : string
}.

(** [func New]. *)
Definition New (username password clientId clientSecret bearerToken : string)
  : togglPlanApi :=
  {| username := username;
     password := password;
     clientId := clientId;
     clientSecret := clientSecret;
     bearerToken := bearerToken |}.

(** [func GetToken]. *)
Definition GetToken (pa : togglPlanApi) : string := bearerToken pa.

(** The assignment [pa.bearerToken = result] on the shared client. *)
Definition setBearerToken (pa : togglPlanApi) (result : string) : togglPlanApi :=
  {| username := username pa;
     password := password pa;
     clientId := clientId pa;
     clientSecret := clientSecret pa;
     bearerToken := result |}.

(** ** Header maps *)

(** [func mergeMaps]: a fresh map receives every pair of [map1], then every
    pair of [map2]. *)
Definition mergeMaps (map1 map2 : gmap string string) : gmap string string :=
  let mergedMap := ∅ in
  let mergedMap := map_fold (λ key value acc, <[key := value]> acc) mergedMap map1 in
  let mergedMap := map_fold (λ key value acc, <[key := value]> acc) mergedMap map2 in
  mergedMap.

(** The literal [defaultHeaders] of [Request]. *)
Definition defaultHeaders : gmap string string :=
  {[ "Content-Type" := "application/json" ]}.

(** ** Library functions on strings used by the package *)

(** [base64.StdEncoding.EncodeToString]: the standard alphabet, three input
    bytes to four output characters, padded with '='. *)
Definition encodeStd : string :=
  "ABCDEFGHIJKLMNOPQRSTUVWXYZabcdefghijklmnopqrstuvwxyz0123456789+/".

Definition base64Char (index : N) : ascii :=
  match String.get (N.to_nat index) encodeStd with
  | Some c => c
  | None => "="%char
  end.

Fixpoint EncodeToString (src : string) : string :=
  match src with
  | EmptyString => ""
  | String a EmptyString =>
      let val := N.shiftl (N_of_ascii a) 16 in
      String (base64Char (N.land (N.shiftr val 18) 63))
        (String (base64Char (N.land (N.shiftr val 12) 63)) "==")
  | String a (String b EmptyString) =>
      let val := N.lor (N.shiftl (N_of_ascii a) 16) (N.shiftl (N_of_ascii b) 8) in
      String (base64Char (N.land (N.shiftr val 18) 63))
        (String (base64Char (N.land (N.shiftr val 12) 63))
           (String (base64Char (N.land (N.shiftr val 6) 63)) "="))
  | String a (String b (String c rest)) =>
      let val := N.lor (N.lor (N.shiftl (N_of_ascii a) 16)
                              (N.shiftl (N_of_ascii b) 8)) (N_of_ascii c) in
      String (base64Char (N.land (N.shiftr val 18) 63))
        (String (base64Char (N.land (N.shiftr val 12) 63))
           (String (base64Char (N.land (N.shiftr val 6) 63))
              (String (base64Char (N.land val 63)) (EncodeToString rest))))
  end.

(** [textproto.CanonicalMIMEHeaderKey], which [http.Header.Set] applies to
    the key: a key made only of token bytes gets an upper-case letter first
    and after every '-', lower-case letters elsewhere; any other key is
    left as it is. *)
Definition isLower (c : ascii) : bool :=
  let n := N_of_ascii c in ((97 <=? n) && (n <=? 122))%N.
Definition isUpper (c : ascii) : bool :=
  let n := N_of_ascii c in ((65 <=? n) && (n <=? 90))%N.
Definition isDigit (c : ascii) : bool :=
  let n := N_of_ascii c in ((48 <=? n) && (n <=? 57))%N.

Fixpoint stringMem (c : ascii) (s : string) : bool :=
  match s with
  | EmptyString => false
  | String d rest => if Ascii.eqb c d then true else stringMem c rest
  end.

Definition validHeaderFieldByte (c : ascii) : bool :=
  isLower c || isUpper c || isDigit c || stringMem c "!#$%&'*+-.^_`|~".

Fixpoint stringForall (p : ascii -> bool) (s : string) : bool :=
  match s with
  | EmptyString => true
  | String c rest => p c && stringForall p rest
  end.

Fixpoint canonicalCase (upper : bool) (s : string) : string :=
  match s with
  | EmptyString => ""
  | String c rest =>
      let c' :=
        if upper && isLower c then ascii_of_N (N_of_ascii c - 32)
        else if negb upper && isUpper c then ascii_of_N (N_of_ascii c + 32)
        else c in
      String c' (canonicalCase (Ascii.eqb c' "-"%char) rest)
  end.

Definition CanonicalMIMEHeaderKey (s : string) : string :=
  if stringForall validHeaderFieldByte s then canonicalCase true s else s.

(** [strconv.ParseInt(s, 10, 64)]: an optional sign, then one or more
    decimal digits, and a value that fits in an int64; [None] stands for a
    non-nil error. *)
Fixpoint parseDigits (acc : Z) (s : string) : option Z :=
  match s with
  | EmptyString => Some acc
  | String c rest =>
      if isDigit c
      then parseDigits (10 * acc + (Z.of_N (N_of_ascii c) - 48)) rest
      else None
  end.

Definition parseUnsigned (s : string) : option Z :=
  match s with
  | EmptyString => None
  | _ => parseDigits 0 s
  end.

Definition inInt64 (n : Z) : bool := (- 2 ^ 63 <=? n) && (n <=? 2 ^ 63 - 1).

Definition ParseInt (s : string) : option Z :=
  let signed :=
    match s with
    | String "+"%char rest => parseUnsigned rest
    | String "-"%char rest => Z.opp <$> parseUnsigned rest
    | _ => parseUnsigned s
    end in
  match signed with
  | Some n => if inInt64 n then Some n else None
  | None => None
  end.

(** Arithmetic on [time.Duration] (an int64 of nanoseconds) wraps around. *)
Definition wrapInt64 (n : Z) : Z := (n + 2 ^ 63) mod 2 ^ 64 - 2 ^ 63.

Definition Second : Z := 1000000000.

(** [http.StatusText]: the registered reason phrase, or the empty string
    for an unknown code. *)
Definition StatusText (code : Z) : string :=
  match code with
  | 100 => "Continue"
  | 101 => "Switching Protocols"
  | 102 => "Processing"
  | 103 => "Early Hints"
  | 200 => "OK"
  | 201 => "Created"
  | 202 => "Accepted"
  | 203 => "Non-Authoritative Information"
  | 204 => "No Content"
  | 205 => "Reset Content"
  | 206 => "Partial Content"
  | 207 => "Multi-Status"
  | 208 => "Already Reported"
  | 226 => "IM Used"
  | 300 => "Multiple Choices"
  | 301 => "Moved Permanently"
  | 302 => "Found"
  | 303 => "See Other"
  | 304 => "Not Modified"
  | 305 => "Use Proxy"
  | 307 => "Temporary Redirect"
  | 308 => "Permanent Redirect"
  | 400 => "Bad Request"
  | 401 => "Unauthorized"
  | 402 => "Payment Required"
  | 403 => "Forbidden"
  | 404 => "Not Found"
  | 405 => "Method Not Allowed"
  | 406 => "Not Acceptable"
  | 407 => "Proxy Authentication Required"
  | 408 => "Request Timeout"
  | 409 => "Conflict"
  | 410 => "Gone"
  | 411 => "Length Required"
  | 412 => "Precondition Failed"
  | 413 => "Request Entity Too Large"
  | 414 => "Request URI Too Long"
  | 415 => "Unsupported Media Type"
  | 416 => "Requested Range Not Satisfiable"
  | 417 => "Expectation Failed"
  | 418 => "I'm a teapot"
  | 421 => "Misdirected Request"
  | 422 => "Unprocessable Entity"
  | 423 => "Locked"
  | 424 => "Failed Dependency"
  | 425 => "Too Early"
  | 426 => "Upgrade Required"
  | 428 => "Precondition Required"
  | 429 => "Too Many Requests"
  | 431 => "Request Header Fields Too Large"
  | 451 => "Unavailable For Legal Reasons"
  | 500 => "Internal Server Error"
  | 501 => "Not Implemented"
  | 502 => "Bad Gateway"
  | 503 => "Service Unavailable"
  | 504 => "Gateway Timeout"
  | 505 => "HTTP Version Not Supported"
  | 506 => "Variant Also Negotiates"
  | 507 => "Insufficient Storage"
  | 508 => "Loop Detected"
  | 510 => "Not Extended"
  | 511 => "Network Authentication Required"
  | _ => ""
  end.

(** ** HTTP requests, responses and the world *)

(** The request handed to the transport.  [Header] holds what
    [req.Header.Set] stored, one value per canonical key. *)
Record HttpRequest : Type := mkHttpRequest {
  Method : string;
  URL : string;
  RequestBody : string;
  Header : gmap string string
}.

(** What the package and go-retryablehttp read of an [http.Response]:
    the status code, the first value of the [Retry-After] header when the
    header is present, and what [io.ReadAll(resp.Body)] returns. *)
Record HttpResponse : Type := mkHttpResponse {
  StatusCode : Z;
  RetryAfter : option string;
  Body : string;
  ReadErr : option error
}.

(** The outcome of one round trip [HTTPClient.Do]: a transport error (and no
    response) or a response. *)
Definition Outcome : Type := error + HttpResponse.

(** The observable effects: the requests put on the wire, in order, and the
    durations slept between attempts, in nanoseconds. *)
Record World : Type := mkWorld {
  sent : list HttpRequest;
  slept : list Z
}.

Definition recordSent (req : HttpRequest) (w : World) : World :=
  {| sent := sent w ++ [req]; slept := slept w |}.

Definition recordSleep (wait : Z) (w : World) : World :=
  {| sent := sent w; slept := slept w ++ [wait] |}.

(** [req.Header.Set(key, value)]. *)
Definition HeaderSet (key value : string) (req : HttpRequest) : HttpRequest :=
  {| Method := Method req;
     URL := URL req;
     RequestBody := RequestBody req;
     Header := <[CanonicalMIMEHeaderKey key := value]> (Header req) |}.

(** ** go-retryablehttp *)

(** The package delegates sending and retrying to the library
    go-retryablehttp.  Its [Client.Do] and [DefaultBackoff] are embedded
    here as the library defines them, since the behaviour of [doRequest]
    is theirs under the settings [doRequest] makes.

    The fields of [retryablehttp.Client] that [doRequest] sets or that
    [NewClient] fills in and [Do] reads.  [RetryMax] is the library's
    "maximum number of retries": a client makes one first attempt and at
    most [RetryMax] further ones.  [NewClient] sets [Backoff] to
    [DefaultBackoff] and leaves [ErrorHandler] nil, so [Do] takes its
    default path at the end. *)
Record Client : Type := mkClient {
  CheckRetry : Outcome -> bool * option error;
  RetryMax : Z;
  RetryWaitMin : Z;
  RetryWaitMax : Z;
  Backoff : Z -> Z -> nat -> option HttpResponse -> Z
}.

(** [retryablehttp.DefaultBackoff].  A 429 or 503 response whose
    [Retry-After] value parses as an integer decides the wait, in seconds;
    otherwise the wait is [min * 2^attemptNum], replaced by [max] when it
    exceeds [max].  (The library computes the product in float64; for the
    bounds used here every product up to [max] is an exact integer.) *)
Definition exponentialWait (min max : Z) (attemptNum : nat) : Z :=
  let mult := 2 ^ Z.of_nat attemptNum * min in
  if mult >? max then max else mult.

Definition DefaultBackoff (min max : Z) (attemptNum : nat)
    (resp : option HttpResponse) : Z :=
  match resp with
  | Some r =>
      if (StatusCode r =? 429) || (StatusCode r =? 503) then
        match RetryAfter r with
        | Some s =>
            match ParseInt s with
            | Some sleep => wrapInt64 (Second * sleep)
            | None => exponentialWait min max attemptNum
            end
        | None => exponentialWait min max attemptNum
        end
      else exponentialWait min max attemptNum
  | None => exponentialWait min max attemptNum
  end.

(** The response a retry decision is about: none after a transport error. *)
Definition responseOf (o : Outcome) : option HttpResponse :=
  match o with
  | inl _ => None
  | inr resp => Some resp
  end.

(** What the loop of [Client.Do] leaves behind when it breaks. *)
Record LoopExit : Type := mkLoopExit {
  lastOutcome : Outcome;
  shouldRetry : bool;
  checkErr : option error;
  attempt : nat
}.

(** [type TokenResponse struct] local to [getToken]. *)
Record TokenResponse : Type := mkTokenResponse {
  AccessToken : string
}.

Section Package.

(** The surroundings of the package.  [roundTrip hist req] is what the
    HTTP transport answers to [req] after the requests [hist] were sent;
    [newRequestError method url] is the error, if any, with which
    [retryablehttp.NewRequest] rejects a method or a URL;
    [jsonUnmarshal data] is [json.Unmarshal] into a fresh [TokenResponse]:
    an error, or the decoded struct. *)
Variable roundTrip : list HttpRequest -> HttpRequest -> Outcome.
Variable newRequestError : string -> string -> option error.
Variable jsonUnmarshal : string -> error + TokenResponse.

(** [c.HTTPClient.Do(req.Request)]. *)
Definition httpDo (req : HttpRequest) (w : World) : Outcome * World :=
  (roundTrip (sent w) req, recordSent req w).

(** The loop [for i := 0; ; i++] of [Client.Do]: attempt the request, ask
    [CheckRetry]; break when no retry is wanted; break when
    [remain := c.RetryMax - i] is not positive; else wait
    [c.Backoff(c.RetryWaitMin, c.RetryWaitMax, i, resp)] and go round
    again.  The argument [remain] is the library's [c.RetryMax - i]; the
    library's attempt counter is always [i + 1]. *)
Fixpoint doLoop (c : Client) (req : HttpRequest) (remain : nat) (i : nat)
    (w : World) : LoopExit * World :=
  let '(out, w) := httpDo req w in
  let '(retry, cerr) := CheckRetry c out in
  let exit := {| lastOutcome := out; shouldRetry := retry;
                 checkErr := cerr; attempt := S i |} in
  if negb retry then (exit, w)
  else
    match remain with
    | O => (exit, w)
    | S remain' =>
        let wait := Backoff c (RetryWaitMin c) (RetryWaitMax c) i (responseOf out) in
        doLoop c req remain' (S i) (recordSleep wait w)
    end.

(** [func (c *Client) Do]: the loop, then the response when the last
    attempt succeeded without a wish to retry, else the giving-up error
    and no response. *)
Definition Do (c : Client) (req : HttpRequest) (w : World)
    : (error + HttpResponse) * World :=
  let '(exit, w) := doLoop c req (Z.to_nat (RetryMax c)) 0 w in
  match lastOutcome exit, checkErr exit, shouldRetry exit with
  | inr resp, None, false => (inr resp, w)
  | out, cerr, _ =>
      let err :=
        match cerr with
        | Some e => Some e
        | None => match out with inl doErr => Some doErr | inr _ => None end
        end in
      match err with
      | None => (inl (givingUp (Method req) (URL req) (attempt exit)), w)
      | Some e => (inl (givingUpWrap (Method req) (URL req) (attempt exit) e), w)
      end
  end.

(** [retryablehttp.NewRequest]; an empty method means GET. *)
Definition NewRequest (method url body : string) : error + HttpRequest :=
  match newRequestError method url with
  | Some err => inl err
  | None =>
      inr {| Method := if decide (method = "") then "GET" else method;
             URL := url;
             RequestBody := body;
             Header := ∅ |}
  end.

(** The [CheckRetry] closure of [doRequest]. *)
Definition checkRetry (o : Outcome) : bool * option error :=
  match o with
  | inl err => (true, Some err)
  | inr resp =>
      if StatusCode resp =? 429 then (true, None)
      else if StatusCode resp =? 401 then (false, None)
      else if (StatusCode resp >=? 500) && negb (StatusCode resp =? 501)
      then (true, None)
      else (false, None)
  end.

(** The client [doRequest] configures. *)
Definition retryClient : Client :=
  {| CheckRetry := checkRetry;
     RetryMax := 5;
     RetryWaitMin := 1 * Second;
     RetryWaitMax := 30 * Second;
     Backoff := DefaultBackoff |}.

(** The request [doRequest] builds before it runs it. *)
Definition prepare (req : HttpRequest) (headers : gmap string string)
    (auth : option authDetails) : HttpRequest :=
  let req := map_fold (λ headerKey headerValue r, HeaderSet headerKey headerValue r)
               req headers in
  match auth with
  | Some a => HeaderSet "Authorization" (AuthType a +:+ " " +:+ Credential a) req
  | None => req
  end.

(** [func doRequest].  The client argument [pa] is not used by the body. *)
Definition doRequest (pa : togglPlanApi) (url method body : string)
    (headers : gmap string string) (auth : option authDetails) (w : World)
    : (string * option error) * World :=
  let client := retryClient in
  match NewRequest method url body with
  | inl err => (("Error building request", Some err), w)
  | inr req =>
      let req := prepare req headers auth in
      match Do client req w with
      | (inl err, w) => (("Error running request", Some err), w)
      | (inr resp, w) =>
          if StatusCode resp =? 401
          then (("Unauthorized", Some (errorString "401")), w)
          else if (StatusCode resp <? 200) || (StatusCode resp >=? 300)
          then ((pretty (StatusCode resp),
                 Some (errorString (StatusText (StatusCode resp)))), w)
          else
            match ReadErr resp with
            | Some err => (("Error reading response", Some err), w)
            | None => ((Body resp, None), w)
            end
      end
  end.

Definition tokenURL : string :=
  "https://api.plan.toggl.com/api/v5/authenticate/token".

(** [func getToken]. *)
Definition getToken (pa : togglPlanApi) (w : World)
    : (string * option error) * World :=
  let headers : gmap string string :=
    {[ "Content-Type" := "application/x-www-form-urlencoded" ]} in
  let auth :=
    {| AuthType := "Basic";
       Credential := EncodeToString (clientId pa +:+ ":" +:+ clientSecret pa) |} in
  let body :=
    "grant_type=password&username=" +:+ username pa +:+ "&password=" +:+ password pa in
  let '((result, err), w) := doRequest pa tokenURL "POST" body headers (Some auth) w in
  match err with
  | None =>
      match jsonUnmarshal result with
      | inl err => (("Couldn't parse authentication attempt response", Some err), w)
      | inr tokenResponse =>
          if decide (AccessToken tokenResponse = "")
          then (("", Some (errorString "access_token not found in response")), w)
          else ((AccessToken tokenResponse, None), w)
      end
  | Some err => (("Couldn't request for a new bearer token", Some err), w)
  end.

(** The part of [Request] after the token check: merge the headers and
    run the request with the bearer token of [pa]. *)
Definition sendWithBearer (pa : togglPlanApi) (url method body : string)
    (headers : gmap string string) (w : World)
    : (string * option error) * togglPlanApi * World :=
  let finalHeaders := mergeMaps defaultHeaders headers in
  let auth := {| AuthType := "Bearer"; Credential := bearerToken pa |} in
  let '(result, w) := doRequest pa url method body finalHeaders (Some auth) w in
  (result, pa, w).

(** [func Request].  The client is shared and mutated in place, so the
    model returns the client as the call leaves it. *)
Definition Request (pa : togglPlanApi) (url method body : string)
    (headers : gmap string string) (w : World)
    : (string * option error) * togglPlanApi * World :=
  if decide (bearerToken pa = "") then
    let '((result, err), w) := getToken pa w in
    match err with
    | None => sendWithBearer (setBearerToken pa result) url method body headers w
    | Some err => (("Couldn't authenticate", Some err), pa, w)
    end
  else sendWithBearer pa url method body headers w.

End Package.

(** ** Concrete surroundings for examples *)

(** A transport that answers the n-th request on the wire with the n-th
    entry of a script, and with [fallback] once the script is used up. *)
Definition scripted (script : list Outcome) (fallback : Outcome)
  : list HttpRequest -> HttpRequest -> Outcome :=
  λ hist _, nth (length hist) script fallback.

(** A response with a status code and a body, no [Retry-After] header and
    a body that reads without error. *)
Definition respond (code : Z) (body : string) : Outcome :=
  inr {| StatusCode := code; RetryAfter := None; Body := body; ReadErr := None |}.

Definition acceptAll : string -> string -> option error := λ _ _, None.

(** A decoder for examples: it reads the documents of the exact shape
    [{"access_token":"..."}] and [{}], and rejects every other text. *)
Definition quote : ascii := ascii_of_N 34.

Fixpoint untilQuote (s : string) : option (string * string) :=
  match s with
  | EmptyString => None
  | String c rest =>
      if Ascii.eqb c quote then Some (EmptyString, rest)
      else match untilQuote rest with
           | Some (tok, tail) => Some (String c tok, tail)
           | None => None
           end
  end.

Definition tokenKey : string :=
  String "{" (String quote ("access_token" +:+
    String quote (String ":" (String quote EmptyString)))).

Fixpoint stripPrefix (p s : string) : option string :=
  match p, s with
  | EmptyString, _ => Some s
  | String a p', String b s' => if Ascii.eqb a b then stripPrefix p' s' else None
  | String _ _, EmptyString => None
  end.

Definition flatDecoder (data : string) : error + TokenResponse :=
  if decide (data = "{}") then inr {| AccessToken := EmptyString |}
  else
    match stripPrefix tokenKey data with
    | Some rest =>
        match untilQuote rest with
        | Some (tok, "}") => inr {| AccessToken := tok |}
        | _ => inl (externalError "invalid token document")
        end
    | None => inl (externalError "invalid token document")
    end.

Definition emptyWorld : World := {| sent := []; slept := [] |}.

Definition tokenDocument (tok : string) : string :=
  tokenKey +:+ tok +:+ String quote "}".

(** ** Vocabulary of the properties *)

(** The outcome of the attempt that follows [k] earlier attempts of the
    same request, when [hist] was on the wire before the first one. *)
Definition outcomeAt (roundTrip : list HttpRequest -> HttpRequest -> Outcome)
    (hist : list HttpRequest) (req : HttpRequest) (k : nat) : Outcome :=
  roundTrip (hist ++ replicate k req) req.

(** The waits before the retries number [0 .. n-1], the first of them
    being the client's retry number [i]. *)
Definition waitsOf (roundTrip : list HttpRequest -> HttpRequest -> Outcome)
    (c : Client) (hist : list HttpRequest) (req : HttpRequest)
    (i n : nat) : list Z :=
  map (λ k, Backoff c (RetryWaitMin c) (RetryWaitMax c) (i + k)
              (responseOf (outcomeAt roundTrip hist req k)))
      (seq 0 n).

(** The outcomes [doRequest] asks to repeat, in the words of its contract: a
    transport error, a 429, or a status of 500 and above other than 501. *)
Definition retryable (o : Outcome) : Prop :=
  match o with
  | inl _ => True
  | inr resp =>
      StatusCode resp = 429 ∨ (500 ≤ StatusCode resp ∧ StatusCode resp ≠ 501)
  end.

(** The request that [doRequest] puts on the wire once
    [retryablehttp.NewRequest] has accepted the method and the URL. *)
Definition wireRequest (url method body : string)
    (headers : gmap string string) (auth : option authDetails) : HttpRequest :=
  prepare {| Method := if decide (method = "") then "GET" else method;
             URL := url;
             RequestBody := body;
             Header := ∅ |} headers auth.

(** What [doRequest] returns when the retry loop broke on the outcome [o]
    of attempt number [attempts]. *)
Definition conclude (req : HttpRequest) (o : Outcome) (attempts : nat)
  : string * option error :=
  match o with
  | inl err =>
      ("Error running request",
       Some (givingUpWrap (Method req) (URL req) attempts err))
  | inr resp =>
      if (checkRetry o).1
      then ("Error running request",
            Some (givingUp (Method req) (URL req) attempts))
      else if StatusCode resp =? 401
      then ("Unauthorized", Some (errorString "401"))
      else if (StatusCode resp <? 200) || (StatusCode resp >=? 300)
      then (pretty (StatusCode resp),
            Some (errorString (StatusText (StatusCode resp))))
      else match ReadErr resp with
           | Some err => ("Error reading response", Some err)
           | None => (Body resp, None)
           end
  end.

(** The number of seconds a server asks the client to wait, as
    [DefaultBackoff] reads it: the integer [Retry-After] value of a 429 or
    503 response. *)
Definition serverDelay (o : Outcome) : option Z :=
  match o with
  | inl _ => None
  | inr r =>
      if (StatusCode r =? 429) || (StatusCode r =? 503)
      then RetryAfter r ≫= ParseInt
      else None
  end.

(** The arguments [getToken] passes to [doRequest]. *)
Definition tokenHeaders : gmap string string :=
  {[ "Content-Type" := "application/x-www-form-urlencoded" ]}.

Definition tokenAuth (pa : togglPlanApi) : authDetails :=
  {| AuthType := "Basic";
     Credential := EncodeToString (clientId pa +:+ ":" +:+ clientSecret pa) |}.

Definition tokenBody (pa : togglPlanApi) : string :=
  "grant_type=password&username=" +:+ username pa +:+ "&password=" +:+ password pa.

(** The token-fetch request on the wire. *)
Definition tokenRequest (pa : togglPlanApi) : HttpRequest :=
  wireRequest tokenURL "POST" (tokenBody pa) tokenHeaders (Some (tokenAuth pa)).

(** The call of [doRequest] inside [getToken]. *)
Definition fetchToken (roundTrip : list HttpRequest -> HttpRequest -> Outcome)
    (newRequestError : string -> string -> option error)
    (pa : togglPlanApi) (w : World) : (string * option error) * World :=
  doRequest roundTrip newRequestError pa tokenURL "POST" (tokenBody pa)
    tokenHeaders (Some (tokenAuth pa)) w.

(** The authorization [Request] attaches, and its request on the wire. *)
Definition bearerAuth (token : string) : authDetails :=
  {| AuthType := "Bearer"; Credential := token |}.

Definition bearerRequest (token url method body : string)
    (headers : gmap string string) : HttpRequest :=
  wireRequest url method body (mergeMaps defaultHeaders headers)
    (Some (bearerAuth token)).

(** The two states of a client in the words of the specification. *)
Inductive TokenState : Type := NoToken | HasToken.

Definition tokenState (pa : togglPlanApi) : TokenState :=
  if decide (bearerToken pa = "") then NoToken else HasToken.

(** One call of [Request] by a caller, and a series of calls on one shared
    client. *)
Record Call : Type := mkCall {
  callURL : string;
  callMethod : string;
  callBody : string;
  callHeaders : gmap string string
}.

Fixpoint runRequests (roundTrip : list HttpRequest -> HttpRequest -> Outcome)
    (newRequestError : string -> string -> option error)
    (jsonUnmarshal : string -> error + TokenResponse)
    (calls : list Call) (pa : togglPlanApi) (w : World)
  : list (string * option error) * togglPlanApi * World :=
  match calls with
  | [] => ([], pa, w)
  | c :: rest =>
      let '(result, pa, w) :=
        Request roundTrip newRequestError jsonUnmarshal pa
          (callURL c) (callMethod c) (callBody c) (callHeaders c) w in
      let '(results, pa, w) :=
        runRequests roundTrip newRequestError jsonUnmarshal rest pa w in
      (result :: results, pa, w)
  end.

(** ** Transports used as examples *)

(** A transport that answers every request with status 500. *)
Definition always500 : list HttpRequest -> HttpRequest -> Outcome :=
  scripted [] (respond 500 "").

(** An answer 429 with [Retry-After: 120], then a 200. *)
Definition retryAfter120 : list HttpRequest -> HttpRequest -> Outcome :=
  scripted
    [inr {| StatusCode := 429; RetryAfter := Some "120"; Body := "";
            ReadErr := None |}]
    (respond 200 "ok").

(** The time slept over a list of waits, in nanoseconds. *)
Definition totalWait (waits : list Z) : Z := foldr Z.add 0 waits.

(** [func TestNormalRequest] of the test file: a fresh client without a
    token, then two calls of [Request] on it for the same endpoint.  The
    test prints the two results; the model returns them with the client
    and the world the test leaves. *)
Definition testUsername : string := "[Toggl Plan username]".
Definition testPassword : string := "[Toggl Plan password]".
Definition testClientId : string := "[Toggl Plan App Key]".
Definition testClientSecret : string := "[Toggl Plan Secret]".

Definition TestNormalRequest
    (roundTrip : list HttpRequest -> HttpRequest -> Outcome)
    (newRequestError : string -> string -> option error)
    (jsonUnmarshal : string -> error + TokenResponse) (w : World)
  : ((string * option error) * (string * option error)) * togglPlanApi * World :=
  let pa := New testUsername testPassword testClientId testClientSecret "" in
  let '(result, pa, w) :=
    Request roundTrip newRequestError jsonUnmarshal pa
      "https://api.plan.toggl.com/api/v5/me" "GET" "" ∅ w in
  let '(result2, pa, w) :=
    Request roundTrip newRequestError jsonUnmarshal pa
      "https://api.plan.toggl.com/api/v5/me" "GET" "" ∅ w in
  ((result, result2), pa, w).

(** The request a call puts on the wire for a client holding [token], and
    the requests of a series of calls, the n-th call sending its request
    [counts !! n] times. *)
Definition callRequest (token : string) (c : Call) : HttpRequest :=
  bearerRequest token (callURL c) (callMethod c) (callBody c) (callHeaders c).

Definition seriesRequests (token : string) (calls : list Call)
    (counts : list nat) : list HttpRequest :=
  concat (zip_with (λ c n, replicate n (callRequest token c)) calls counts).

(** ** Facts about header maps *)

(** Copying a map pair by pair into [acc] gives the union in which the
    copied map wins. *)
Lemma map_fold_insert_union (m acc : gmap string string) :
  map_fold (λ key value a, <[key := value]> a) acc m = m ∪ acc.
Proof.
  apply (map_fold_weak_ind (λ r m, r = m ∪ acc)).
  - by rewrite (left_id_L ∅ (∪)).
  - intros i x m0 r _ ->. by rewrite insert_union_l.
Qed.

Lemma mergeMaps_union (map1 map2 : gmap string string) :
  mergeMaps map1 map2 = map2 ∪ map1.
Proof.
  unfold mergeMaps. rewrite !map_fold_insert_union.
  by rewrite (right_id_L ∅ (∪)).
Qed.

Lemma mergeMaps_lookup (map1 map2 : gmap string string) (key : string) :
  mergeMaps map1 map2 !! key =
  match map2 !! key with
  | Some value => Some value
  | None => map1 !! key
  end.
Proof.
  rewrite mergeMaps_union, lookup_union.
  destruct (map2 !! key), (map1 !! key); reflexivity.
Qed.

(** ** Checks of the embedded library functions *)

Example EncodeToString_samples :
  EncodeToString "key:secret" = "a2V5OnNlY3JldA==" ∧
  EncodeToString "ab" = "YWI=" ∧
  EncodeToString "abc" = "YWJj" ∧
  EncodeToString "" = "".
Proof. repeat split. Qed.

Example CanonicalMIMEHeaderKey_samples :
  CanonicalMIMEHeaderKey "content-type" = "Content-Type" ∧
  CanonicalMIMEHeaderKey "Content-Type" = "Content-Type" ∧
  CanonicalMIMEHeaderKey "Authorization" = "Authorization" ∧
  CanonicalMIMEHeaderKey "x api key" = "x api key".
Proof. repeat split. Qed.

Example ParseInt_samples :
  ParseInt "120" = Some 120 ∧ ParseInt "-5" = Some (-5) ∧
  ParseInt "" = None ∧ ParseInt "+" = None ∧ ParseInt "12s" = None ∧
  ParseInt "9223372036854775808" = None.
Proof. repeat split. Qed.

Example status_rendering_samples :
  pretty 404 = "404" ∧ StatusText 404 = "Not Found" ∧ StatusText 299 = "".
Proof. repeat split. Qed.

(** ** The retry loop *)

Section RetryLoop.

Variable roundTrip : list HttpRequest -> HttpRequest -> Outcome.

Lemma outcomeAt_shift hist req k :
  outcomeAt roundTrip (hist ++ [req]) req k = outcomeAt roundTrip hist req (S k).
Proof.
  unfold outcomeAt. by rewrite <- app_assoc.
Qed.

Lemma waitsOf_S c hist req i n :
  waitsOf roundTrip c hist req i (S n) =
  Backoff c (RetryWaitMin c) (RetryWaitMax c) i (responseOf (outcomeAt roundTrip hist req 0))
    :: waitsOf roundTrip c (hist ++ [req]) req (S i) n.
Proof.
  unfold waitsOf. simpl. rewrite Nat.add_0_r. f_equal.
  rewrite <- seq_shift, map_map.
  apply map_ext. intros k. rewrite outcomeAt_shift.
  by replace (i + S k)%nat with (S i + k)%nat by lia.
Qed.

(** The loop stops at the first attempt [n] that [CheckRetry] does not want
    repeated, or at attempt [remain] when every attempt before wanted a
    retry; it has then sent the request [n + 1] times and slept before
    each retry. *)
Lemma doLoop_spec (c : Client) (req : HttpRequest) (remain i : nat) (w : World) :
  ∃ n : nat,
    (n ≤ remain)%nat ∧
    (∀ k, (k < n)%nat → (CheckRetry c (outcomeAt roundTrip (sent w) req k)).1 = true) ∧
    ((CheckRetry c (outcomeAt roundTrip (sent w) req n)).1 = false ∨ n = remain) ∧
    doLoop roundTrip c req remain i w =
      ({| lastOutcome := outcomeAt roundTrip (sent w) req n;
          shouldRetry := (CheckRetry c (outcomeAt roundTrip (sent w) req n)).1;
          checkErr := (CheckRetry c (outcomeAt roundTrip (sent w) req n)).2;
          attempt := S (i + n) |},
       {| sent := sent w ++ replicate (S n) req;
          slept := slept w ++ waitsOf roundTrip c (sent w) req i n |}).
Proof.
  revert i w. induction remain as [|remain IH]; intros i w.
  - exists 0%nat. split; [lia|]. split; [intros k Hk; lia|].
    split; [by right|].
    simpl. unfold httpDo, outcomeAt. simpl. rewrite app_nil_r.
    destruct (CheckRetry c (roundTrip (sent w) req)) as [retry cerr]. simpl.
    rewrite Nat.add_0_r, app_nil_r.
    by destruct retry.
  - simpl. unfold httpDo.
    destruct (CheckRetry c (roundTrip (sent w) req)) as [retry cerr] eqn:Hcr.
    destruct retry; simpl.
    + destruct (IH (S i)
                  (recordSleep
                     (Backoff c (RetryWaitMin c) (RetryWaitMax c) i
                        (responseOf (roundTrip (sent w) req)))
                     (recordSent req w)))
        as (n & Hn & Hbefore & Hlast & Heq).
      simpl in Hbefore, Hlast, Heq.
      exists (S n). split; [lia|]. split; [|split].
      * intros [|k] Hk.
        -- unfold outcomeAt. simpl. rewrite app_nil_r. by rewrite Hcr.
        -- rewrite <- outcomeAt_shift. apply Hbefore. lia.
      * rewrite <- outcomeAt_shift. destruct Hlast as [?|?]; [by left|right; lia].
      * rewrite Heq. rewrite !outcomeAt_shift. f_equal.
        -- f_equal. lia.
        -- rewrite waitsOf_S. unfold outcomeAt at 1. simpl.
           rewrite app_nil_r, <- !app_assoc. reflexivity.
    + exists 0%nat. split; [lia|]. split; [intros k Hk; lia|].
      unfold outcomeAt. simpl. rewrite !app_nil_r, Hcr, Nat.add_0_r. simpl.
      split; [by left|reflexivity].
Qed.

End RetryLoop.

(** ** The retrying executor *)

Lemma checkRetry_retryable (o : Outcome) :
  (checkRetry o).1 = true ↔ retryable o.
Proof.
  destruct o as [err|resp]; simpl; [tauto|].
  rewrite Z.geb_leb.
  destruct (Z.eqb_spec (StatusCode resp) 429); simpl; [tauto|].
  destruct (Z.eqb_spec (StatusCode resp) 401); simpl.
  { split; [discriminate|lia]. }
  destruct (Z.leb_spec 500 (StatusCode resp)),
           (Z.eqb_spec (StatusCode resp) 501); simpl;
    (split; [try discriminate; tauto | intros; try reflexivity; lia]).
Qed.

Lemma checkRetry_not_retryable (o : Outcome) :
  (checkRetry o).1 = false ↔ ¬ retryable o.
Proof.
  rewrite <- checkRetry_retryable. destruct (checkRetry o).1; split; congruence.
Qed.

(** [checkRetry] reports an error exactly for a transport error. *)
Lemma checkRetry_response (resp : HttpResponse) :
  (checkRetry (inr resp)).2 = None.
Proof.
  simpl. repeat case_match; reflexivity.
Qed.

Section Executor.

Variable roundTrip : list HttpRequest -> HttpRequest -> Outcome.
Variable newRequestError : string -> string -> option error.

Lemma doRequest_rejected pa url method body headers auth w err :
  newRequestError method url = Some err →
  doRequest roundTrip newRequestError pa url method body headers auth w =
    (("Error building request", Some err), w).
Proof.
  intros Hrej. unfold doRequest, NewRequest. by rewrite Hrej.
Qed.

(** The whole run of [doRequest] on an accepted request: [n] retries, at
    most five, each after a retryable outcome; the run ends on the first
    outcome that is not retryable, or on the sixth attempt. *)
Lemma doRequest_trace pa url method body headers auth w :
  newRequestError method url = None →
  let req := wireRequest url method body headers auth in
  ∃ n : nat,
    (n ≤ 5)%nat ∧
    (∀ k, (k < n)%nat → retryable (outcomeAt roundTrip (sent w) req k)) ∧
    (¬ retryable (outcomeAt roundTrip (sent w) req n) ∨ n = 5%nat) ∧
    doRequest roundTrip newRequestError pa url method body headers auth w =
      (conclude req (outcomeAt roundTrip (sent w) req n) (S n),
       {| sent := sent w ++ replicate (S n) req;
          slept := slept w ++ waitsOf roundTrip retryClient (sent w) req 0 n |}).
Proof.
  intros Hacc req.
  destruct (doLoop_spec roundTrip retryClient req 5 0 w)
    as (n & Hn & Hbefore & Hlast & Heq).
  exists n. split; [exact Hn|]. split; [|split].
  - intros k Hk. apply checkRetry_retryable. by apply Hbefore.
  - destruct Hlast as [Hlast|Hlast]; [left|by right].
    by apply checkRetry_not_retryable.
  - unfold doRequest, NewRequest. rewrite Hacc.
    fold (wireRequest url method body headers auth). fold req.
    unfold Do.
    change (Z.to_nat (RetryMax retryClient)) with 5%nat.
    rewrite Heq. cbn [lastOutcome checkErr shouldRetry attempt retryClient CheckRetry].
    unfold conclude.
    destruct (outcomeAt roundTrip (sent w) req n) as [err|resp] eqn:Hout.
    + reflexivity.
    + rewrite checkRetry_response.
      destruct (checkRetry (inr resp)).1; [reflexivity|].
      repeat case_match; reflexivity.
Qed.

(** The run that ends on attempt [m + 1] because its outcome is not
    retryable. *)
Lemma doRequest_stops_at pa url method body headers auth w (m : nat) :
  newRequestError method url = None →
  let req := wireRequest url method body headers auth in
  (m ≤ 5)%nat →
  (∀ k, (k < m)%nat → retryable (outcomeAt roundTrip (sent w) req k)) →
  ¬ retryable (outcomeAt roundTrip (sent w) req m) →
  doRequest roundTrip newRequestError pa url method body headers auth w =
    (conclude req (outcomeAt roundTrip (sent w) req m) (S m),
     {| sent := sent w ++ replicate (S m) req;
        slept := slept w ++ waitsOf roundTrip retryClient (sent w) req 0 m |}).
Proof.
  intros Hacc req Hm Hbefore Hstop.
  destruct (doRequest_trace pa url method body headers auth w Hacc)
    as (n & Hn & Hb & Hl & Heq).
  fold req in Hb, Hl, Heq.
  assert (n = m) as ->; [|exact Heq].
  destruct (Nat.lt_trichotomy n m) as [Hlt|[Heqn|Hgt]]; [|exact Heqn|].
  - destruct Hl as [Hl|Hl]; [|lia]. destruct Hl. by apply Hbefore.
  - destruct Hstop. by apply Hb.
Qed.

(** The run in which every one of the six attempts has a retryable
    outcome. *)
Lemma doRequest_exhausts pa url method body headers auth w :
  newRequestError method url = None →
  let req := wireRequest url method body headers auth in
  (∀ k, (k ≤ 5)%nat → retryable (outcomeAt roundTrip (sent w) req k)) →
  doRequest roundTrip newRequestError pa url method body headers auth w =
    (conclude req (outcomeAt roundTrip (sent w) req 5) 6,
     {| sent := sent w ++ replicate 6 req;
        slept := slept w ++ waitsOf roundTrip retryClient (sent w) req 0 5 |}).
Proof.
  intros Hacc req Hall.
  destruct (doRequest_trace pa url method body headers auth w Hacc)
    as (n & Hn & Hb & Hl & Heq).
  fold req in Hb, Hl, Heq.
  assert (n = 5%nat) as ->; [|exact Heq].
  destruct Hl as [Hl|Hl]; [|exact Hl]. destruct Hl. by apply Hall.
Qed.

End Executor.

(** ** Facts about the request on the wire *)

Lemma HeaderSet_fields key value req :
  Method (HeaderSet key value req) = Method req ∧
  URL (HeaderSet key value req) = URL req ∧
  RequestBody (HeaderSet key value req) = RequestBody req.
Proof. by unfold HeaderSet. Qed.

Lemma prepare_fields req headers auth :
  Method (prepare req headers auth) = Method req ∧
  URL (prepare req headers auth) = URL req ∧
  RequestBody (prepare req headers auth) = RequestBody req.
Proof.
  unfold prepare.
  assert (Method (map_fold (λ k v r, HeaderSet k v r) req headers) = Method req ∧
          URL (map_fold (λ k v r, HeaderSet k v r) req headers) = URL req ∧
          RequestBody (map_fold (λ k v r, HeaderSet k v r) req headers)
            = RequestBody req) as Hfold.
  { apply (map_fold_weak_ind
             (λ r _, Method r = Method req ∧ URL r = URL req ∧
                     RequestBody r = RequestBody req)); [done|].
    intros k v m r _ (Hm & Hu & Hb). simpl. by rewrite Hm, Hu, Hb. }
  destruct auth as [a|]; [|exact Hfold].
  destruct Hfold as (Hm & Hu & Hb). simpl. by rewrite Hm, Hu, Hb.
Qed.

Lemma prepare_Authorization req headers (a : authDetails) :
  Header (prepare req headers (Some a)) !! "Authorization" =
    Some (AuthType a +:+ " " +:+ Credential a).
Proof.
  unfold prepare, HeaderSet. simpl.
  change (CanonicalMIMEHeaderKey "Authorization") with "Authorization".
  apply lookup_insert_eq.
Qed.

Lemma wireRequest_fields url method body headers auth :
  Method (wireRequest url method body headers auth) =
    (if decide (method = "") then "GET" else method) ∧
  URL (wireRequest url method body headers auth) = url ∧
  RequestBody (wireRequest url method body headers auth) = body.
Proof. unfold wireRequest. apply prepare_fields. Qed.

Lemma waitsOf_length roundTrip c hist req i n :
  length (waitsOf roundTrip c hist req i n) = n.
Proof. unfold waitsOf. by rewrite length_map, length_seq. Qed.

Lemma waitsOf_lookup roundTrip c hist req i n k :
  (k < n)%nat →
  waitsOf roundTrip c hist req i n !! k =
    Some (Backoff c (RetryWaitMin c) (RetryWaitMax c) (i + k)
            (responseOf (outcomeAt roundTrip hist req k))).
Proof.
  intros Hk. unfold waitsOf.
  rewrite list_lookup_fmap, lookup_seq_lt by done. reflexivity.
Qed.

(** ** Properties of the retrying executor *)

(** C1, as stated, fails: when every attempt is answered with status 500
    the executor makes six attempts (the first one and five retries), so it
    is not true that at most five attempts are made. *)
Lemma doRequest_all500_six_attempts :
  let run := doRequest always500 acceptAll (New "u" "p" "key" "secret" "")
               "https://api.plan.toggl.com/api/v5/me" "GET" "" ∅ None emptyWorld in
  length (sent run.2) = 6%nat ∧
  run.1 = ("Error running request",
           Some (givingUp "GET" "https://api.plan.toggl.com/api/v5/me" 6)) ∧
  ¬ (length (sent run.2) ≤ 5)%nat.
Proof.
  vm_compute. split; [reflexivity|]. split; [reflexivity|]. lia.
Qed.

(** C1, amended: for every request the executor accepts, a retry follows an
    attempt exactly when that attempt ends in a transport error, a 429 or a
    status of 500 and above other than 501, and fewer than five retries
    were made; so at most six attempts are made.  Outcomes 500, 500, 200
    give exactly two retries and the body of the 200 response as a
    success; six 500 outcomes give the giving-up failure after exactly six
    attempts. *)
Theorem doRequest_retry_policy
    (roundTrip : list HttpRequest -> HttpRequest -> Outcome)
    (newRequestError : string -> string -> option error)
    (pa : togglPlanApi) (url method body : string)
    (headers : gmap string string) (auth : option authDetails) (w : World) :
  newRequestError method url = None →
  let req := wireRequest url method body headers auth in
  let run := doRequest roundTrip newRequestError pa url method body headers auth w in
  let outcome := outcomeAt roundTrip (sent w) req in
  (∃ retries : nat,
      (retries ≤ 5)%nat ∧
      sent run.2 = sent w ++ replicate (S retries) req ∧
      length (slept run.2) = (length (slept w) + retries)%nat ∧
      (∀ k, (k < retries)%nat → retryable (outcome k)) ∧
      (¬ retryable (outcome retries) ∨ retries = 5%nat)) ∧
  (∀ r0 r1 r2,
      outcome 0%nat = inr r0 → StatusCode r0 = 500 →
      outcome 1%nat = inr r1 → StatusCode r1 = 500 →
      outcome 2%nat = inr r2 → StatusCode r2 = 200 → ReadErr r2 = None →
      run.1 = (Body r2, None) ∧
      sent run.2 = sent w ++ replicate 3 req ∧
      length (slept run.2) = (length (slept w) + 2)%nat) ∧
  ((∀ k, (k ≤ 5)%nat → ∃ r, outcome k = inr r ∧ StatusCode r = 500) →
      run.1 = ("Error running request",
               Some (givingUp (Method req) (URL req) 6)) ∧
      sent run.2 = sent w ++ replicate 6 req ∧
      length (slept run.2) = (length (slept w) + 5)%nat).
Proof.
  intros Hacc req run outcome. split; [|split].
  - destruct (doRequest_trace roundTrip newRequestError pa url method body
                headers auth w Hacc) as (n & Hn & Hb & Hl & Heq).
    exists n. subst run. rewrite Heq. simpl.
    rewrite length_app, waitsOf_length. done.
  - intros r0 r1 r2 H0 Hc0 H1 Hc1 H2 Hc2 Hread.
    subst run.
    rewrite (doRequest_stops_at roundTrip newRequestError pa url method body
               headers auth w 2 Hacc).
    + fold req. fold outcome. rewrite H2. simpl.
      rewrite length_app, waitsOf_length.
      unfold conclude. simpl. rewrite Hc2, Hread. done.
    + lia.
    + intros k Hk. fold req. fold outcome.
      destruct k as [|[|k]]; [rewrite H0|rewrite H1|lia]; simpl; lia.
    + fold req. fold outcome. rewrite H2. simpl. lia.
  - intros Hall. subst run.
    rewrite (doRequest_exhausts roundTrip newRequestError pa url method body
               headers auth w Hacc).
    + fold req. fold outcome.
      destruct (Hall 5%nat) as (r & Hr & Hc); [lia|]. rewrite Hr. simpl.
      rewrite length_app, waitsOf_length.
      unfold conclude. simpl. rewrite Hc. done.
    + intros k Hk. fold req. fold outcome.
      destruct (Hall k Hk) as (r & Hr & Hc). rewrite Hr. simpl. lia.
Qed.

Lemma doRequest_retry_policy_witness :
  let roundTrip := scripted [respond 500 ""; respond 500 ""; respond 200 "ok"]
                     (respond 500 "") in
  let run := doRequest roundTrip acceptAll (New "u" "p" "key" "secret" "")
               "https://api.plan.toggl.com/api/v5/me" "GET" "" ∅ None emptyWorld in
  run.1 = ("ok", None) ∧ length (sent run.2) = 3%nat ∧ length (slept run.2) = 2%nat.
Proof.
  intros roundTrip run.
  destruct (doRequest_retry_policy roundTrip acceptAll
              (New "u" "p" "key" "secret" "")
              "https://api.plan.toggl.com/api/v5/me" "GET" "" ∅ None emptyWorld
              eq_refl) as (_ & Hscenario & _).
  destruct (Hscenario
              {| StatusCode := 500; RetryAfter := None; Body := ""; ReadErr := None |}
              {| StatusCode := 500; RetryAfter := None; Body := ""; ReadErr := None |}
              {| StatusCode := 200; RetryAfter := None; Body := "ok"; ReadErr := None |}
              eq_refl eq_refl eq_refl eq_refl eq_refl eq_refl eq_refl)
    as (Hres & Hsent & Hslept).
  split; [exact Hres|]. split.
  - fold run in Hsent. rewrite Hsent. reflexivity.
  - exact Hslept.
Defined.

(** C2: a 401 answer is never retried.  Whatever number [m] of retries came
    before it (so whatever budget is left), the executor stops at the first
    401: the request has gone out [m + 1] times and no more, and the result
    is the text "Unauthorized" with the error [errors.New("401")]. *)
Theorem doRequest_unauthorized_terminal
    (roundTrip : list HttpRequest -> HttpRequest -> Outcome)
    (newRequestError : string -> string -> option error)
    (pa : togglPlanApi) (url method body : string)
    (headers : gmap string string) (auth : option authDetails) (w : World)
    (m : nat) (resp : HttpResponse) :
  newRequestError method url = None →
  let req := wireRequest url method body headers auth in
  let run := doRequest roundTrip newRequestError pa url method body headers auth w in
  (m ≤ 5)%nat →
  (∀ k, (k < m)%nat → retryable (outcomeAt roundTrip (sent w) req k)) →
  outcomeAt roundTrip (sent w) req m = inr resp →
  StatusCode resp = 401 →
  run.1 = ("Unauthorized", Some (errorString "401")) ∧
  sent run.2 = sent w ++ replicate (S m) req ∧
  length (slept run.2) = (length (slept w) + m)%nat.
Proof.
  intros Hacc req run Hm Hbefore Hout Hcode. subst run.
  rewrite (doRequest_stops_at roundTrip newRequestError pa url method body
             headers auth w m Hacc Hm Hbefore).
  - fold req. rewrite Hout. simpl.
    rewrite length_app, waitsOf_length.
    unfold conclude. simpl. rewrite Hcode. done.
  - fold req. rewrite Hout. simpl. lia.
Qed.

Lemma doRequest_unauthorized_terminal_witness :
  let roundTrip := scripted [respond 503 ""; respond 401 ""] (respond 200 "late") in
  let run := doRequest roundTrip acceptAll (New "u" "p" "key" "secret" "stale")
               "https://api.plan.toggl.com/api/v5/me" "GET" "" ∅ None emptyWorld in
  run.1 = ("Unauthorized", Some (errorString "401")) ∧
  length (sent run.2) = 2%nat.
Proof.
  intros roundTrip run.
  assert (∀ k, (k < 1)%nat →
            retryable (outcomeAt roundTrip (sent emptyWorld)
                         (wireRequest "https://api.plan.toggl.com/api/v5/me"
                            "GET" "" ∅ None) k)) as Hbefore.
  { intros k Hk. destruct k as [|k]; [|lia]. vm_compute. right. split; discriminate. }
  destruct (doRequest_unauthorized_terminal roundTrip acceptAll
              (New "u" "p" "key" "secret" "stale")
              "https://api.plan.toggl.com/api/v5/me" "GET" "" ∅ None emptyWorld
              1%nat
              {| StatusCode := 401; RetryAfter := None; Body := ""; ReadErr := None |}
              eq_refl ltac:(lia) Hbefore eq_refl eq_refl)
    as (Hres & Hsent & _).
  split; [exact Hres|].
  fold run in Hsent. rewrite Hsent. reflexivity.
Defined.

(** C8, as stated, fails for a 5xx that is left when the retry budget is
    used up: after six 500 answers the result is the text
    "Error running request" with the giving-up error, not the text "500"
    with the status text. *)
Lemma doRequest_exhausted_500_not_status :
  let run := doRequest always500 acceptAll (New "u" "p" "key" "secret" "")
               "https://api.plan.toggl.com/api/v5/me" "GET" "" ∅ None emptyWorld in
  run.1 = ("Error running request",
           Some (givingUp "GET" "https://api.plan.toggl.com/api/v5/me" 6)) ∧
  run.1 ≠ (pretty 500, Some (errorString (StatusText 500))).
Proof.
  vm_compute. split; [reflexivity|discriminate].
Qed.

(** C8, amended: when the run ends on a response that the retry policy does
    not ask to repeat, whose status is outside 200-299 and is not 401, the
    result is the status code in decimal with the error
    [errors.New(http.StatusText(code))]; when the run ends because the
    budget is used up on a response the policy still asks to repeat (a 429
    or a status of 500 and above other than 501), the result is the text
    "Error running request" with the giving-up error of the sixth attempt. *)
Theorem doRequest_status_failure
    (roundTrip : list HttpRequest -> HttpRequest -> Outcome)
    (newRequestError : string -> string -> option error)
    (pa : togglPlanApi) (url method body : string)
    (headers : gmap string string) (auth : option authDetails) (w : World)
    (m : nat) (resp : HttpResponse) :
  newRequestError method url = None →
  let req := wireRequest url method body headers auth in
  let run := doRequest roundTrip newRequestError pa url method body headers auth w in
  (m ≤ 5)%nat →
  (∀ k, (k < m)%nat → retryable (outcomeAt roundTrip (sent w) req k)) →
  outcomeAt roundTrip (sent w) req m = inr resp →
  (¬ retryable (inr resp) →
   ¬ (200 ≤ StatusCode resp ≤ 299) → StatusCode resp ≠ 401 →
   run.1 = (pretty (StatusCode resp),
            Some (errorString (StatusText (StatusCode resp))))) ∧
  (retryable (inr resp) → m = 5%nat →
   run.1 = ("Error running request",
            Some (givingUp (Method req) (URL req) 6))).
Proof.
  intros Hacc req run Hm Hbefore Hout. split.
  - intros Hstop Hrange H401. subst run.
    rewrite (doRequest_stops_at roundTrip newRequestError pa url method body
               headers auth w m Hacc Hm Hbefore).
    + fold req. rewrite Hout. cbn [fst]. unfold conclude.
      apply checkRetry_not_retryable in Hstop. rewrite Hstop.
      destruct (Z.eqb_spec (StatusCode resp) 401) as [?|_]; [done|].
      rewrite Z.geb_leb.
      destruct (Z.ltb_spec (StatusCode resp) 200); [done|].
      destruct (Z.leb_spec 300 (StatusCode resp)); [done|]. lia.
    + fold req. by rewrite Hout.
  - intros Hretry ->. subst run.
    rewrite (doRequest_exhausts roundTrip newRequestError pa url method body
               headers auth w Hacc).
    + fold req. rewrite Hout. cbn [fst]. unfold conclude.
      apply checkRetry_retryable in Hretry. by rewrite Hretry.
    + intros k Hk. fold req.
      destruct (decide (k = 5%nat)) as [->|Hne]; [by rewrite Hout|].
      apply Hbefore. lia.
Qed.

Lemma doRequest_status_failure_witness :
  let roundTrip := scripted [respond 502 ""; respond 404 "missing"] (respond 200 "late") in
  let run := doRequest roundTrip acceptAll (New "u" "p" "key" "secret" "tok")
               "https://api.plan.toggl.com/api/v5/me" "GET" "" ∅ None emptyWorld in
  run.1 = ("404", Some (errorString "Not Found")).
Proof.
  intros roundTrip run.
  assert (∀ k, (k < 1)%nat →
            retryable (outcomeAt roundTrip (sent emptyWorld)
                         (wireRequest "https://api.plan.toggl.com/api/v5/me"
                            "GET" "" ∅ None) k)) as Hbefore.
  { intros k Hk. destruct k as [|k]; [|lia]. vm_compute. right. split; discriminate. }
  destruct (doRequest_status_failure roundTrip acceptAll
              (New "u" "p" "key" "secret" "tok")
              "https://api.plan.toggl.com/api/v5/me" "GET" "" ∅ None emptyWorld
              1%nat
              {| StatusCode := 404; RetryAfter := None; Body := "missing";
                 ReadErr := None |}
              eq_refl ltac:(lia) Hbefore eq_refl)
    as (Hstatus & _).
  apply Hstatus.
  - unfold retryable. simpl. lia.
  - simpl. lia.
  - discriminate.
Defined.

(** ** The backoff schedule *)

Lemma DefaultBackoff_serverDelay min max attemptNum (o : Outcome) :
  DefaultBackoff min max attemptNum (responseOf o) =
  match serverDelay o with
  | Some sleep => wrapInt64 (Second * sleep)
  | None => exponentialWait min max attemptNum
  end.
Proof.
  destruct o as [err|r]; simpl; [reflexivity|].
  destruct ((StatusCode r =? 429) || (StatusCode r =? 503)); [|reflexivity].
  destruct (RetryAfter r) as [s|]; simpl; [|reflexivity].
  destruct (ParseInt s); reflexivity.
Qed.

Lemma exponentialWait_schedule (k : nat) :
  (k < 5)%nat →
  exponentialWait (1 * Second) (30 * Second) k = 2 ^ Z.of_nat k * Second ∧
  1 * Second ≤ 2 ^ Z.of_nat k * Second ≤ 30 * Second.
Proof.
  intros Hk.
  destruct k as [|[|[|[|[|k]]]]]; [| | | | |lia]; vm_compute;
    (split; [reflexivity|split; discriminate]).
Qed.

(** C9, as stated, fails: a 429 answer carrying [Retry-After: 120] makes the
    executor wait 120 seconds before the retry, above the 30 second
    bound. *)
Lemma doRequest_retry_after_exceeds_bound :
  let run := doRequest retryAfter120 acceptAll (New "u" "p" "key" "secret" "tok")
               "https://api.plan.toggl.com/api/v5/me" "GET" "" ∅ None emptyWorld in
  run.1 = ("ok", None) ∧
  slept run.2 = [120 * Second] ∧
  ¬ (∀ d, d ∈ slept run.2 → 1 * Second ≤ d ≤ 30 * Second).
Proof.
  intros run.
  assert (run.1 = ("ok", None) ∧ slept run.2 = [120 * Second]) as [Hres Hslept].
  { vm_compute. split; reflexivity. }
  split; [exact Hres|]. split; [exact Hslept|].
  rewrite Hslept. intros Hall.
  destruct (Hall (120 * Second)) as [_ Hle]; [apply list_elem_of_here|].
  revert Hle. unfold Second. lia.
Qed.

(** C9, amended: the executor sleeps once before each retry.  Before retry
    number [k] (counted from 0, at most 4) it waits [2^k] seconds, which
    lies between 1 and 30 seconds, unless the answer just received is a 429
    or 503 with an integer [Retry-After] value; then it waits that many
    seconds, whatever the bounds. *)
Theorem doRequest_backoff_schedule
    (roundTrip : list HttpRequest -> HttpRequest -> Outcome)
    (newRequestError : string -> string -> option error)
    (pa : togglPlanApi) (url method body : string)
    (headers : gmap string string) (auth : option authDetails) (w : World) :
  newRequestError method url = None →
  let req := wireRequest url method body headers auth in
  let run := doRequest roundTrip newRequestError pa url method body headers auth w in
  ∃ waits : list Z,
    slept run.2 = slept w ++ waits ∧
    sent run.2 = sent w ++ replicate (S (length waits)) req ∧
    (length waits ≤ 5)%nat ∧
    ∀ (k : nat) (d : Z), waits !! k = Some d →
      match serverDelay (outcomeAt roundTrip (sent w) req k) with
      | None => d = 2 ^ Z.of_nat k * Second ∧ 1 * Second ≤ d ≤ 30 * Second
      | Some sleep => d = wrapInt64 (Second * sleep)
      end.
Proof.
  intros Hacc req run.
  destruct (doRequest_trace roundTrip newRequestError pa url method body
              headers auth w Hacc) as (n & Hn & Hb & Hl & Heq).
  fold req in Heq. subst run. rewrite Heq. simpl.
  exists (waitsOf roundTrip retryClient (sent w) req 0 n).
  rewrite waitsOf_length. split; [reflexivity|]. split; [reflexivity|].
  split; [exact Hn|].
  intros k d Hlook.
  assert (k < n)%nat as Hk.
  { apply lookup_lt_Some in Hlook. by rewrite waitsOf_length in Hlook. }
  rewrite waitsOf_lookup in Hlook by exact Hk.
  injection Hlook as <-. simpl.
  rewrite DefaultBackoff_serverDelay.
  destruct (serverDelay (outcomeAt roundTrip (sent w) req k)); [reflexivity|].
  destruct (exponentialWait_schedule k) as [-> Hbound]; [lia|].
  split; [reflexivity|exact Hbound].
Qed.

Lemma doRequest_backoff_schedule_witness :
  let roundTrip := scripted [respond 500 ""; respond 502 ""] (respond 200 "ok") in
  let run := doRequest roundTrip acceptAll (New "u" "p" "key" "secret" "tok")
               "https://api.plan.toggl.com/api/v5/me" "GET" "" ∅ None emptyWorld in
  ∃ waits : list Z,
    slept run.2 = waits ∧ (length waits ≤ 5)%nat ∧
    ∀ d, waits !! 1%nat = Some d → d = 2 * Second ∧ 1 * Second ≤ d ≤ 30 * Second.
Proof.
  intros roundTrip run.
  destruct (doRequest_backoff_schedule roundTrip acceptAll
              (New "u" "p" "key" "secret" "tok")
              "https://api.plan.toggl.com/api/v5/me" "GET" "" ∅ None emptyWorld
              eq_refl) as (waits & Hslept & _ & Hlen & Hwaits).
  exists waits. split; [exact Hslept|]. split; [exact Hlen|].
  intros d Hd. exact (Hwaits 1%nat d Hd).
Defined.

(** ** Token acquisition and [Request] *)

Section TokenFlow.

Variable roundTrip : list HttpRequest -> HttpRequest -> Outcome.
Variable newRequestError : string -> string -> option error.
Variable jsonUnmarshal : string -> error + TokenResponse.

Lemma doRequest_sent pa url method body headers auth w :
  ∃ n : nat,
    (n ≤ 6)%nat ∧
    (newRequestError method url = None → (1 ≤ n)%nat) ∧
    sent (doRequest roundTrip newRequestError pa url method body headers auth w).2 =
      sent w ++ replicate n (wireRequest url method body headers auth).
Proof.
  destruct (newRequestError method url) as [err|] eqn:Hnre.
  - exists 0%nat. split; [lia|]. split; [discriminate|].
    rewrite (doRequest_rejected _ _ _ _ _ _ _ _ _ err Hnre). simpl.
    by rewrite app_nil_r.
  - destruct (doRequest_trace roundTrip newRequestError pa url method body
                headers auth w Hnre) as (n & Hn & _ & _ & Heq).
    exists (S n). split; [lia|]. split; [lia|]. by rewrite Heq.
Qed.

Lemma getToken_fetch pa w :
  getToken roundTrip newRequestError jsonUnmarshal pa w =
  let fetch := fetchToken roundTrip newRequestError pa w in
  match fetch.1.2 with
  | None =>
      match jsonUnmarshal fetch.1.1 with
      | inl err => (("Couldn't parse authentication attempt response", Some err), fetch.2)
      | inr tokenResponse =>
          if decide (AccessToken tokenResponse = "")
          then (("", Some (errorString "access_token not found in response")), fetch.2)
          else ((AccessToken tokenResponse, None), fetch.2)
      end
  | Some err => (("Couldn't request for a new bearer token", Some err), fetch.2)
  end.
Proof.
  unfold getToken, fetchToken, tokenBody, tokenHeaders, tokenAuth.
  destruct (doRequest _ _ _ _ _ _ _ _ _) as [[result err] w1]. reflexivity.
Qed.

Lemma getToken_world pa w :
  (getToken roundTrip newRequestError jsonUnmarshal pa w).2 =
  (fetchToken roundTrip newRequestError pa w).2.
Proof.
  rewrite getToken_fetch. simpl. repeat case_match; reflexivity.
Qed.

Lemma getToken_sent pa w :
  ∃ n : nat,
    (n ≤ 6)%nat ∧
    sent (getToken roundTrip newRequestError jsonUnmarshal pa w).2 =
      sent w ++ replicate n (tokenRequest pa).
Proof.
  rewrite getToken_world. unfold fetchToken, tokenRequest.
  destruct (doRequest_sent pa tokenURL "POST" (tokenBody pa) tokenHeaders
              (Some (tokenAuth pa)) w) as (n & Hn & _ & Hs).
  by exists n.
Qed.

(** A token fetch that reports no error delivers a non-empty token, decoded
    from the body of the response. *)
Lemma getToken_success pa w tok :
  (getToken roundTrip newRequestError jsonUnmarshal pa w).1 = (tok, None) →
  tok ≠ "" ∧
  ∃ data tokenResponse,
    (fetchToken roundTrip newRequestError pa w).1 = (data, None) ∧
    jsonUnmarshal data = inr tokenResponse ∧
    AccessToken tokenResponse = tok.
Proof.
  rewrite getToken_fetch. simpl.
  destruct (fetchToken roundTrip newRequestError pa w) as [[data err] w1]. simpl.
  destruct err as [err|]; [discriminate|].
  destruct (jsonUnmarshal data) as [err|tr] eqn:Hju; [discriminate|].
  destruct (decide (AccessToken tr = "")) as [Hempty|Hfull]; [discriminate|].
  simpl. intros [= <-]. split; [exact Hfull|]. by exists data, tr.
Qed.

Lemma sendWithBearer_unfold pa url method body headers w :
  sendWithBearer roundTrip newRequestError pa url method body headers w =
  let send := doRequest roundTrip newRequestError pa url method body
                (mergeMaps defaultHeaders headers)
                (Some (bearerAuth (bearerToken pa))) w in
  (send.1, pa, send.2).
Proof.
  unfold sendWithBearer, bearerAuth.
  destruct (doRequest _ _ _ _ _ _ _ _ _) as [result w1]. reflexivity.
Qed.

Lemma Request_unfold pa url method body headers w :
  Request roundTrip newRequestError jsonUnmarshal pa url method body headers w =
  if decide (bearerToken pa = "") then
    let fetch := getToken roundTrip newRequestError jsonUnmarshal pa w in
    match fetch.1.2 with
    | None =>
        sendWithBearer roundTrip newRequestError
          (setBearerToken pa fetch.1.1) url method body headers fetch.2
    | Some err => (("Couldn't authenticate", Some err), pa, fetch.2)
    end
  else sendWithBearer roundTrip newRequestError pa url method body headers w.
Proof.
  unfold Request. destruct (decide (bearerToken pa = "")); [|reflexivity].
  destruct (getToken _ _ _ _ _) as [[result err] w1]. reflexivity.
Qed.

End TokenFlow.

Lemma tokenRequest_Header (pa : togglPlanApi) :
  Header (tokenRequest pa) =
  <["Authorization" :=
      "Basic " +:+ EncodeToString (clientId pa +:+ ":" +:+ clientSecret pa)]>
    {[ "Content-Type" := "application/x-www-form-urlencoded" ]}.
Proof.
  unfold tokenRequest, wireRequest, prepare, tokenHeaders.
  rewrite map_fold_singleton. unfold HeaderSet, tokenAuth.
  cbn [Header Method URL RequestBody AuthType Credential].
  change (CanonicalMIMEHeaderKey "Authorization") with "Authorization".
  change (CanonicalMIMEHeaderKey "Content-Type") with "Content-Type".
  rewrite insert_empty. reflexivity.
Qed.

(** C6: every request [getToken] puts on the wire is a POST to the fixed
    token endpoint with the header [Authorization: Basic] followed by
    base64(clientId ":" clientSecret), the header [Content-Type:
    application/x-www-form-urlencoded], and the body
    [grant_type=password&username=<username>&password=<password>]; once the
    request is accepted by the request builder it is sent at least once. *)
Theorem getToken_request
    (roundTrip : list HttpRequest -> HttpRequest -> Outcome)
    (newRequestError : string -> string -> option error)
    (jsonUnmarshal : string -> error + TokenResponse)
    (pa : togglPlanApi) (w : World) :
  newRequestError "POST" tokenURL = None →
  let run := getToken roundTrip newRequestError jsonUnmarshal pa w in
  ∃ (n : nat) (req : HttpRequest),
    (1 ≤ n ≤ 6)%nat ∧
    sent run.2 = sent w ++ replicate n req ∧
    Method req = "POST" ∧
    URL req = "https://api.plan.toggl.com/api/v5/authenticate/token" ∧
    Header req !! "Authorization" =
      Some ("Basic " +:+ EncodeToString (clientId pa +:+ ":" +:+ clientSecret pa)) ∧
    Header req !! "Content-Type" = Some "application/x-www-form-urlencoded" ∧
    RequestBody req =
      "grant_type=password&username=" +:+ username pa +:+
      "&password=" +:+ password pa.
Proof.
  intros Hacc run. subst run.
  rewrite getToken_world. unfold fetchToken.
  destruct (doRequest_sent roundTrip newRequestError pa tokenURL "POST"
              (tokenBody pa) tokenHeaders (Some (tokenAuth pa)) w)
    as (n & Hn & Hpos & Hsent).
  exists n, (tokenRequest pa).
  split; [specialize (Hpos Hacc); lia|].
  split; [exact Hsent|].
  destruct (wireRequest_fields tokenURL "POST" (tokenBody pa) tokenHeaders
              (Some (tokenAuth pa))) as (Hm & Hu & Hb).
  split; [exact Hm|]. split; [exact Hu|].
  rewrite tokenRequest_Header.
  split; [apply lookup_insert_eq|].
  split; [|exact Hb].
  rewrite lookup_insert_ne by discriminate. apply lookup_singleton_eq.
Qed.

Lemma getToken_request_witness :
  let roundTrip := scripted [respond 200 (tokenDocument "T0K")] (respond 500 "") in
  let run := getToken roundTrip acceptAll flatDecoder
               (New "user" "pass" "key" "secret" "") emptyWorld in
  ∃ (n : nat) (req : HttpRequest),
    sent run.2 = replicate n req ∧
    Method req = "POST" ∧
    Header req !! "Authorization" = Some "Basic a2V5OnNlY3JldA==" ∧
    RequestBody req = "grant_type=password&username=user&password=pass".
Proof.
  intros roundTrip run.
  destruct (getToken_request roundTrip acceptAll flatDecoder
              (New "user" "pass" "key" "secret" "") emptyWorld eq_refl)
    as (n & req & _ & Hsent & Hm & _ & Hauth & _ & Hbody).
  exists n, req. split; [exact Hsent|]. split; [exact Hm|].
  split; [exact Hauth|exact Hbody].
Defined.

(** ** Properties of [Request] *)




(** C3: with no cached token, [Request] first runs the token fetch, which
    sends nothing but token requests.  When the fetch succeeds the token is
    stored on the client and the requested call follows, in the world the
    fetch left, with [Authorization: Bearer] and that token.  When the fetch
    fails, [Request] returns "Couldn't authenticate" with the error of the
    fetch, the cached token is still empty, and nothing but the token
    requests went out. *)
Theorem Request_without_token
    (roundTrip : list HttpRequest -> HttpRequest -> Outcome)
    (newRequestError : string -> string -> option error)
    (jsonUnmarshal : string -> error + TokenResponse)
    (pa : togglPlanApi) (url method body : string)
    (headers : gmap string string) (w : World) :
  bearerToken pa = "" →
  let fetch := getToken roundTrip newRequestError jsonUnmarshal pa w in
  let run := Request roundTrip newRequestError jsonUnmarshal pa url method
               body headers w in
  (∃ n : nat, (n ≤ 6)%nat ∧
     sent fetch.2 = sent w ++ replicate n (tokenRequest pa)) ∧
  (∀ token, fetch.1 = (token, None) →
     let send := doRequest roundTrip newRequestError (setBearerToken pa token)
                   url method body (mergeMaps defaultHeaders headers)
                   (Some (bearerAuth token)) fetch.2 in
     run = (send.1, setBearerToken pa token, send.2) ∧
     bearerToken run.1.2 = token ∧
     token ≠ "" ∧
     Header (bearerRequest token url method body headers) !! "Authorization" =
       Some ("Bearer " +:+ token) ∧
     ∃ m : nat, (m ≤ 6)%nat ∧
       sent run.2 =
         sent fetch.2 ++ replicate m (bearerRequest token url method body headers)) ∧
  (∀ message err, fetch.1 = (message, Some err) →
     run = (("Couldn't authenticate", Some err), pa, fetch.2) ∧
     bearerToken run.1.2 = "" ∧
     ∃ n : nat, sent run.2 = sent w ++ replicate n (tokenRequest pa)).
Proof.
  intros Hempty fetch run.
  assert (run =
          match fetch.1.2 with
          | None =>
              sendWithBearer roundTrip newRequestError
                (setBearerToken pa fetch.1.1) url method body headers fetch.2
          | Some err => (("Couldn't authenticate", Some err), pa, fetch.2)
          end) as Hrun.
  { subst run. rewrite Request_unfold.
    destruct (decide (bearerToken pa = "")); [reflexivity|contradiction]. }
  destruct (getToken_sent roundTrip newRequestError jsonUnmarshal pa w)
    as (n & Hn & Hsent).
  fold fetch in Hsent.
  split; [by exists n|]. split.
  - intros token Hfetch send.
    rewrite Hfetch in Hrun. cbn [fst snd] in Hrun.
    rewrite sendWithBearer_unfold in Hrun. cbn zeta in Hrun.
    change (bearerToken (setBearerToken pa token)) with token in Hrun.
    fold send in Hrun.
    split; [exact Hrun|]. rewrite Hrun. cbn [fst snd].
    split; [reflexivity|].
    split; [exact (proj1 (getToken_success _ _ _ _ _ _ Hfetch))|].
    split; [apply prepare_Authorization|].
    destruct (doRequest_sent roundTrip newRequestError (setBearerToken pa token)
                url method body (mergeMaps defaultHeaders headers)
                (Some (bearerAuth token)) fetch.2) as (m & Hm & _ & Hs).
    exists m. split; [exact Hm|exact Hs].
  - intros message err Hfetch.
    rewrite Hfetch in Hrun. cbn [fst snd] in Hrun.
    split; [exact Hrun|]. rewrite Hrun. cbn [fst snd].
    split; [exact Hempty|]. by exists n.
Qed.

Lemma Request_without_token_witness :
  let roundTrip := scripted [respond 200 (tokenDocument "T0K"); respond 200 "me"]
                     (respond 500 "") in
  let run := Request roundTrip acceptAll flatDecoder
               (New "user" "pass" "key" "secret" "")
               "https://api.plan.toggl.com/api/v5/me" "GET" "" ∅ emptyWorld in
  run.1.1 = ("me", None) ∧ bearerToken run.1.2 = "T0K" ∧
  length (sent run.2) = 2%nat.
Proof.
  intros roundTrip run.
  destruct (Request_without_token roundTrip acceptAll flatDecoder
              (New "user" "pass" "key" "secret" "")
              "https://api.plan.toggl.com/api/v5/me" "GET" "" ∅ emptyWorld
              eq_refl) as (_ & Hok & _).
  destruct (Hok "T0K") as (Hrun & Htok & _).
  { vm_compute. reflexivity. }
  fold run in Hrun, Htok.
  split; [|split; [exact Htok|]].
  - rewrite Hrun. vm_compute. reflexivity.
  - rewrite Hrun. vm_compute. reflexivity.
Defined.

(** C5: when the token-fetch response has a body that the JSON decoder
    rejects, or that decodes to an empty [access_token], [getToken] returns
    an error; [Request] on a client without a token then returns
    "Couldn't authenticate" with that error and leaves the cached token
    empty. *)
Theorem getToken_malformed_response
    (roundTrip : list HttpRequest -> HttpRequest -> Outcome)
    (newRequestError : string -> string -> option error)
    (jsonUnmarshal : string -> error + TokenResponse)
    (pa : togglPlanApi) (w : World) (data : string) :
  (fetchToken roundTrip newRequestError pa w).1 = (data, None) →
  ((∃ err, jsonUnmarshal data = inl err) ∨
   (∃ tokenResponse, jsonUnmarshal data = inr tokenResponse ∧
                     AccessToken tokenResponse = "")) →
  let fetch := getToken roundTrip newRequestError jsonUnmarshal pa w in
  ∃ (message : string) (err : error),
    fetch.1 = (message, Some err) ∧
    (bearerToken pa = "" →
     ∀ url method body headers,
       let run := Request roundTrip newRequestError jsonUnmarshal pa url
                    method body headers w in
       run = (("Couldn't authenticate", Some err), pa, fetch.2) ∧
       bearerToken run.1.2 = "" ∧ GetToken run.1.2 = "").
Proof.
  intros Hbody Hbad fetch.
  assert (∃ message err, fetch.1 = (message, Some err)) as (message & err & Hfetch).
  { subst fetch. rewrite getToken_fetch. cbn zeta. rewrite Hbody. cbn [fst snd].
    destruct Hbad as [[err Herr]|(tr & Htr & Hempty)].
    - rewrite Herr. by eexists _, _.
    - rewrite Htr. rewrite decide_True by exact Hempty. by eexists _, _. }
  exists message, err. split; [exact Hfetch|].
  intros Hnone url method body headers run.
  assert (run = (("Couldn't authenticate", Some err), pa, fetch.2)) as Hrun.
  { subst run. rewrite Request_unfold. rewrite decide_True by exact Hnone.
    cbn zeta. fold fetch. by rewrite Hfetch. }
  split; [exact Hrun|]. rewrite Hrun. cbn [fst snd]. by split.
Qed.

Lemma getToken_malformed_response_witness :
  let roundTrip := scripted [respond 200 "{}"] (respond 200 "unreached") in
  let pa := New "user" "pass" "key" "secret" "" in
  let run := Request roundTrip acceptAll flatDecoder pa
               "https://api.plan.toggl.com/api/v5/me" "GET" "" ∅ emptyWorld in
  run.1.1 = ("Couldn't authenticate",
             Some (errorString "access_token not found in response")) ∧
  bearerToken run.1.2 = "" ∧ length (sent run.2) = 1%nat.
Proof.
  intros roundTrip pa run.
  destruct (getToken_malformed_response roundTrip acceptAll flatDecoder pa
              emptyWorld "{}") as (message & err & Hfetch & Hreq).
  { vm_compute. reflexivity. }
  { right. exists {| AccessToken := "" |}. split; reflexivity. }
  destruct (Hreq eq_refl "https://api.plan.toggl.com/api/v5/me" "GET" "" ∅)
    as (Hrun & Htok & _).
  fold run in Hrun, Htok.
  assert (err = errorString "access_token not found in response") as ->.
  { assert ((getToken roundTrip acceptAll flatDecoder pa emptyWorld).1.2 =
            Some (errorString "access_token not found in response")) as Hc
      by (vm_compute; reflexivity).
    rewrite Hfetch in Hc. by injection Hc. }
  split; [by rewrite Hrun|]. split; [exact Htok|].
  rewrite Hrun. vm_compute. reflexivity.
Defined.

(** A client with a cached token is left as it is by a call of [Request]. *)
Lemma Request_keeps_token roundTrip newRequestError jsonUnmarshal pa url method
    body headers w :
  bearerToken pa ≠ "" →
  (Request roundTrip newRequestError jsonUnmarshal pa url method body headers w).1.2
    = pa.
Proof.
  intros Hfull. rewrite Request_unfold. rewrite decide_False by exact Hfull.
  by rewrite sendWithBearer_unfold.
Qed.

Lemma runRequests_keeps_token roundTrip newRequestError jsonUnmarshal calls pa w :
  bearerToken pa ≠ "" →
  (runRequests roundTrip newRequestError jsonUnmarshal calls pa w).1.2 = pa.
Proof.
  intros Hfull. revert w. induction calls as [|c calls IH]; intros w; [done|].
  simpl.
  pose proof (Request_keeps_token roundTrip newRequestError jsonUnmarshal pa
                (callURL c) (callMethod c) (callBody c) (callHeaders c) w Hfull)
    as Hkeep.
  destruct (Request _ _ _ _ _ _ _ _ _) as [[result pa1] w1].
  simpl in Hkeep. subst pa1.
  specialize (IH w1).
  destruct (runRequests _ _ _ _ _ _) as [[results pa2] w2]. exact IH.
Qed.

(** The client a call of [Request] leaves behind. *)
Lemma Request_client roundTrip newRequestError jsonUnmarshal pa url method
    body headers w :
  (Request roundTrip newRequestError jsonUnmarshal pa url method body headers w).1.2 =
  if decide (bearerToken pa = "") then
    match (getToken roundTrip newRequestError jsonUnmarshal pa w).1.2 with
    | None =>
        setBearerToken pa
          (getToken roundTrip newRequestError jsonUnmarshal pa w).1.1
    | Some _ => pa
    end
  else pa.
Proof.
  rewrite Request_unfold.
  destruct (decide (bearerToken pa = "")) as [Hempty|Hfull].
  - cbn zeta.
    destruct ((getToken roundTrip newRequestError jsonUnmarshal pa w).1.2);
      [reflexivity|].
    by rewrite sendWithBearer_unfold.
  - by rewrite sendWithBearer_unfold.
Qed.

Lemma bearerRequest_not_tokenRequest token url method body headers pa :
  bearerRequest token url method body headers ≠ tokenRequest pa.
Proof.
  intros Heq.
  assert (Header (bearerRequest token url method body headers) !! "Authorization" =
          Header (tokenRequest pa) !! "Authorization") as Hauth by (by rewrite Heq).
  unfold bearerRequest, tokenRequest, wireRequest in Hauth.
  rewrite !prepare_Authorization in Hauth. discriminate Hauth.
Qed.

(** C7: with a cached token, [Request] goes straight to the executor with
    that token: the client comes back unchanged, every request sent carries
    [Authorization: Bearer] with the cached token and none is a token
    request, and this stays so over any series of calls.  A client in state
    [HasToken] stays there; a client in state [NoToken] reaches [HasToken]
    exactly when the token fetch reports no error. *)
Theorem Request_with_token
    (roundTrip : list HttpRequest -> HttpRequest -> Outcome)
    (newRequestError : string -> string -> option error)
    (jsonUnmarshal : string -> error + TokenResponse)
    (pa : togglPlanApi) (url method body : string)
    (headers : gmap string string) (w : World) :
  let run := Request roundTrip newRequestError jsonUnmarshal pa url method
               body headers w in
  let fetch := getToken roundTrip newRequestError jsonUnmarshal pa w in
  let req := bearerRequest (bearerToken pa) url method body headers in
  (bearerToken pa ≠ "" →
     let send := doRequest roundTrip newRequestError pa url method body
                   (mergeMaps defaultHeaders headers)
                   (Some (bearerAuth (bearerToken pa))) w in
     run = (send.1, pa, send.2) ∧
     (∃ m : nat, (m ≤ 6)%nat ∧ sent run.2 = sent w ++ replicate m req) ∧
     Header req !! "Authorization" = Some ("Bearer " +:+ bearerToken pa) ∧
     (∀ other, req ≠ tokenRequest other) ∧
     ∀ calls,
       (runRequests roundTrip newRequestError jsonUnmarshal calls pa w).1.2 = pa) ∧
  (tokenState pa = HasToken → tokenState run.1.2 = HasToken) ∧
  (tokenState pa = NoToken →
     (tokenState run.1.2 = HasToken ↔ fetch.1.2 = None)).
Proof.
  intros run fetch req. split; [|split].
  - intros Hfull send.
    assert (run = (send.1, pa, send.2)) as Hrun.
    { subst run. rewrite Request_unfold. rewrite decide_False by exact Hfull.
      by rewrite sendWithBearer_unfold. }
    split; [exact Hrun|]. rewrite Hrun. cbn [fst snd]. split; [|split; [|split]].
    + destruct (doRequest_sent roundTrip newRequestError pa url method body
                  (mergeMaps defaultHeaders headers)
                  (Some (bearerAuth (bearerToken pa))) w) as (m & Hm & _ & Hs).
      exists m. split; [exact Hm|exact Hs].
    + apply prepare_Authorization.
    + intros other. apply bearerRequest_not_tokenRequest.
    + intros calls. by apply runRequests_keeps_token.
  - unfold tokenState. intros Hstate.
    destruct (decide (bearerToken pa = "")) as [|Hfull]; [discriminate|].
    subst run. rewrite Request_keeps_token by exact Hfull.
    by rewrite decide_False.
  - unfold tokenState. intros Hstate.
    destruct (decide (bearerToken pa = "")) as [Hempty|]; [|discriminate].
    subst run. rewrite Request_client. fold fetch.
    destruct (decide (bearerToken pa = "")) as [_|]; [|contradiction].
    destruct (fetch.1.2) as [err|] eqn:Herr.
    + rewrite decide_True by exact Hempty. split; discriminate.
    + change (bearerToken (setBearerToken pa fetch.1.1)) with fetch.1.1.
      assert (fetch.1 = (fetch.1.1, None)) as Hfetch.
      { rewrite <- Herr. by destruct fetch.1. }
      destruct (getToken_success _ _ _ _ _ _ Hfetch) as [Hne _].
      rewrite decide_False by exact Hne. done.
Qed.

Lemma Request_with_token_witness :
  let roundTrip := scripted [respond 200 "me"] (respond 500 "") in
  let pa := New "user" "pass" "key" "secret" "T0K" in
  let run := Request roundTrip acceptAll flatDecoder pa
               "https://api.plan.toggl.com/api/v5/me" "GET" "" ∅ emptyWorld in
  run.1.1 = ("me", None) ∧ run.1.2 = pa ∧ length (sent run.2) = 1%nat.
Proof.
  intros roundTrip pa run.
  destruct (Request_with_token roundTrip acceptAll flatDecoder pa
              "https://api.plan.toggl.com/api/v5/me" "GET" "" ∅ emptyWorld)
    as (Hcached & _).
  destruct Hcached as (Hrun & _); [discriminate|].
  fold run in Hrun. rewrite Hrun. cbn [fst snd].
  split; [vm_compute; reflexivity|]. split; [reflexivity|].
  vm_compute. reflexivity.
Defined.

(** C10: a call of [Request] never changes the username, the password, the
    client id or the client secret.  It changes the cached token only when
    the token was empty on entry and the token fetch reported no error; the
    token is then the fetched one, which is not empty and is what
    [GetToken] returns afterwards.  In every other case the client is left
    exactly as it was. *)
Theorem Request_frame
    (roundTrip : list HttpRequest -> HttpRequest -> Outcome)
    (newRequestError : string -> string -> option error)
    (jsonUnmarshal : string -> error + TokenResponse)
    (pa : togglPlanApi) (url method body : string)
    (headers : gmap string string) (w : World) :
  let run := Request roundTrip newRequestError jsonUnmarshal pa url method
               body headers w in
  let fetch := getToken roundTrip newRequestError jsonUnmarshal pa w in
  let after := run.1.2 in
  username after = username pa ∧
  password after = password pa ∧
  clientId after = clientId pa ∧
  clientSecret after = clientSecret pa ∧
  (bearerToken pa = "" ∧ fetch.1.2 = None →
     bearerToken after = fetch.1.1 ∧ fetch.1.1 ≠ "" ∧
     GetToken after = fetch.1.1) ∧
  (¬ (bearerToken pa = "" ∧ fetch.1.2 = None) → after = pa).
Proof.
  intros run fetch after.
  assert (after =
          if decide (bearerToken pa = "") then
            match fetch.1.2 with
            | None => setBearerToken pa fetch.1.1
            | Some _ => pa
            end
          else pa) as Hafter.
  { subst after run. by rewrite Request_client. }
  assert (username after = username pa ∧ password after = password pa ∧
          clientId after = clientId pa ∧ clientSecret after = clientSecret pa)
    as (Hu & Hp & Hi & Hs).
  { rewrite Hafter. destruct (decide (bearerToken pa = "")); [|done].
    destruct (fetch.1.2); done. }
  split; [exact Hu|]. split; [exact Hp|]. split; [exact Hi|]. split; [exact Hs|].
  split.
  - intros [Hempty Hok]. rewrite Hafter.
    rewrite decide_True by exact Hempty. rewrite Hok.
    assert (fetch.1 = (fetch.1.1, None)) as Hfetch.
    { rewrite <- Hok. by destruct fetch.1. }
    destruct (getToken_success _ _ _ _ _ _ Hfetch) as [Hne _].
    done.
  - intros Hother. rewrite Hafter.
    destruct (decide (bearerToken pa = "")) as [Hempty|]; [|reflexivity].
    destruct (fetch.1.2) as [err|] eqn:Hok; [reflexivity|].
    destruct Hother. by split.
Qed.

Lemma Request_frame_witness :
  let roundTrip := scripted [respond 200 (tokenDocument "T0K"); respond 404 ""]
                     (respond 500 "") in
  let pa := New "user" "pass" "key" "secret" "" in
  let run := Request roundTrip acceptAll flatDecoder pa
               "https://api.plan.toggl.com/api/v5/me" "GET" "" ∅ emptyWorld in
  username run.1.2 = "user" ∧ bearerToken run.1.2 = "T0K" ∧
  GetToken run.1.2 = "T0K".
Proof.
  intros roundTrip pa run.
  destruct (Request_frame roundTrip acceptAll flatDecoder pa
              "https://api.plan.toggl.com/api/v5/me" "GET" "" ∅ emptyWorld)
    as (Hu & _ & _ & _ & Hset & _).
  fold run in Hu, Hset.
  destruct Hset as (Htok & _ & Hget).
  { split; [reflexivity|vm_compute; reflexivity]. }
  split; [exact Hu|]. split.
  - rewrite Htok. vm_compute. reflexivity.
  - rewrite Hget. vm_compute. reflexivity.
Defined.

(** ** Further properties of [mergeMaps] *)

(** X1: for any two maps, a key of the merged map carries the value of the
    second map when the second map has the key, and the value of the first
    map otherwise; a key is absent from the merged map exactly when both
    maps lack it, so the keys of the merged map are those of the two maps
    together. *)
Theorem mergeMaps_entries (map1 map2 : gmap string string) :
  (∀ key value,
      mergeMaps map1 map2 !! key = Some value ↔
      map2 !! key = Some value ∨ (map2 !! key = None ∧ map1 !! key = Some value)) ∧
  (∀ key,
      mergeMaps map1 map2 !! key = None ↔
      map1 !! key = None ∧ map2 !! key = None) ∧
  dom (mergeMaps map1 map2) = dom map1 ∪ dom map2.
Proof.
  split; [|split].
  - intros key value. rewrite mergeMaps_lookup.
    destruct (map2 !! key) as [v|]; split.
    + intros [= ->]. by left.
    + intros [H|[H _]]; [exact H|discriminate].
    + intros H. right. by split.
    + intros [H|[_ H]]; [discriminate|exact H].
  - intros key. rewrite mergeMaps_lookup.
    destruct (map2 !! key) as [v|]; split.
    + discriminate.
    + intros [_ H]. discriminate.
    + intros H. by split.
    + intros [H _]. exact H.
  - rewrite mergeMaps_union, dom_union_L. apply (comm_L (∪)).
Qed.

(** X2: merging with an empty map on either side gives the other map back,
    merging a map with itself gives the map, and merging three maps gives
    the same result whichever pair is merged first. *)
Theorem mergeMaps_algebra (map1 map2 map3 : gmap string string) :
  mergeMaps map1 ∅ = map1 ∧
  mergeMaps ∅ map1 = map1 ∧
  mergeMaps map1 map1 = map1 ∧
  mergeMaps (mergeMaps map1 map2) map3 = mergeMaps map1 (mergeMaps map2 map3).
Proof.
  rewrite !mergeMaps_union. split; [|split; [|split]].
  - apply (left_id_L ∅ (∪)).
  - apply (right_id_L ∅ (∪)).
  - apply (idemp_L (∪)).
  - apply (assoc_L (∪)).
Qed.

(** X3: the order of the two arguments matters exactly on the keys the maps
    share: merging in either order gives the same map if and only if the
    two maps hold the same value at every key they both have. *)
Theorem mergeMaps_order (map1 map2 : gmap string string) :
  mergeMaps map1 map2 = mergeMaps map2 map1 ↔
  ∀ key v1 v2, map1 !! key = Some v1 → map2 !! key = Some v2 → v1 = v2.
Proof.
  split.
  - intros Heq key v1 v2 H1 H2.
    assert (mergeMaps map1 map2 !! key = mergeMaps map2 map1 !! key) as Hk
      by (by rewrite Heq).
    rewrite !mergeMaps_lookup, H1, H2 in Hk. by injection Hk.
  - intros Hagree. apply map_eq. intros key. rewrite !mergeMaps_lookup.
    destruct (map1 !! key) as [v1|] eqn:H1, (map2 !! key) as [v2|] eqn:H2;
      try reflexivity.
    f_equal. symmetry. by apply (Hagree key).
Qed.

(** ** Further properties of [doRequest] *)

(** X4: [doRequest] reports a nil error only for a response whose status is
    in 200-299 and whose body was read in full; the result is then that
    body, the request was accepted by the request builder, and it is the
    last of at most six copies on the wire. *)
Theorem doRequest_nil_error
    (roundTrip : list HttpRequest -> HttpRequest -> Outcome)
    (newRequestError : string -> string -> option error)
    (pa : togglPlanApi) (url method body : string)
    (headers : gmap string string) (auth : option authDetails) (w : World) :
  let req := wireRequest url method body headers auth in
  let run := doRequest roundTrip newRequestError pa url method body headers auth w in
  run.1.2 = None →
  newRequestError method url = None ∧
  ∃ (retries : nat) (resp : HttpResponse),
    (retries ≤ 5)%nat ∧
    outcomeAt roundTrip (sent w) req retries = inr resp ∧
    200 ≤ StatusCode resp ≤ 299 ∧
    ReadErr resp = None ∧
    run.1.1 = Body resp ∧
    sent run.2 = sent w ++ replicate (S retries) req.
Proof.
  intros req run Hnil.
  destruct (newRequestError method url) as [err|] eqn:Hnre.
  { subst run. rewrite (doRequest_rejected _ _ _ _ _ _ _ _ _ err Hnre) in Hnil.
    discriminate Hnil. }
  split; [reflexivity|].
  destruct (doRequest_trace roundTrip newRequestError pa url method body
              headers auth w Hnre) as (n & Hn & _ & _ & Heq).
  fold req in Heq. subst run. rewrite Heq in Hnil |- *. cbn [fst snd] in *.
  exists n. unfold conclude in *.
  destruct (outcomeAt roundTrip (sent w) req n) as [err|resp]; [discriminate|].
  exists resp. split; [exact Hn|]. split; [reflexivity|].
  destruct (checkRetry (inr resp)).1; [discriminate|].
  destruct (Z.eqb_spec (StatusCode resp) 401); [discriminate|].
  rewrite Z.geb_leb in *.
  destruct (Z.ltb_spec (StatusCode resp) 200); [discriminate|].
  destruct (Z.leb_spec 300 (StatusCode resp)); [discriminate|].
  cbn [orb] in *.
  destruct (ReadErr resp); [discriminate|].
  split; [lia|]. done.
Qed.

Lemma doRequest_nil_error_witness :
  let roundTrip := scripted [respond 429 ""; respond 204 ""] (respond 500 "") in
  let run := doRequest roundTrip acceptAll (New "u" "p" "key" "secret" "tok")
               "https://api.plan.toggl.com/api/v5/me" "DELETE" "" ∅ None emptyWorld in
  ∃ (retries : nat) (resp : HttpResponse),
    (retries ≤ 5)%nat ∧ 200 ≤ StatusCode resp ≤ 299 ∧ run.1.1 = Body resp.
Proof.
  intros roundTrip run.
  destruct (doRequest_nil_error roundTrip acceptAll (New "u" "p" "key" "secret" "tok")
              "https://api.plan.toggl.com/api/v5/me" "DELETE" "" ∅ None emptyWorld)
    as (_ & retries & resp & Hle & _ & Hcode & _ & Hbody & _).
  { vm_compute. reflexivity. }
  exists retries, resp. split; [exact Hle|]. split; [exact Hcode|exact Hbody].
Defined.

(** X5: a response with a status in 200-299 ends the run at once, whatever
    retries came before it: when its body reads without error the result is
    the body with a nil error, and when reading the body fails the result
    is "Error reading response" with the reader's error. *)
Theorem doRequest_success_response
    (roundTrip : list HttpRequest -> HttpRequest -> Outcome)
    (newRequestError : string -> string -> option error)
    (pa : togglPlanApi) (url method body : string)
    (headers : gmap string string) (auth : option authDetails) (w : World)
    (m : nat) (resp : HttpResponse) :
  newRequestError method url = None →
  let req := wireRequest url method body headers auth in
  let run := doRequest roundTrip newRequestError pa url method body headers auth w in
  (m ≤ 5)%nat →
  (∀ k, (k < m)%nat → retryable (outcomeAt roundTrip (sent w) req k)) →
  outcomeAt roundTrip (sent w) req m = inr resp →
  200 ≤ StatusCode resp ≤ 299 →
  sent run.2 = sent w ++ replicate (S m) req ∧
  (ReadErr resp = None → run.1 = (Body resp, None)) ∧
  (∀ err, ReadErr resp = Some err → run.1 = ("Error reading response", Some err)).
Proof.
  intros Hacc req run Hm Hbefore Hout Hcode.
  assert (¬ retryable (outcomeAt roundTrip (sent w) req m)) as Hstop.
  { rewrite Hout. simpl. lia. }
  subst run.
  rewrite (doRequest_stops_at roundTrip newRequestError pa url method body
             headers auth w m Hacc Hm Hbefore Hstop).
  fold req. rewrite Hout. cbn [fst snd sent]. split; [reflexivity|].
  unfold conclude.
  rewrite Hout in Hstop. apply checkRetry_not_retryable in Hstop. rewrite Hstop.
  destruct (Z.eqb_spec (StatusCode resp) 401); [lia|].
  rewrite Z.geb_leb.
  destruct (Z.ltb_spec (StatusCode resp) 200); [lia|].
  destruct (Z.leb_spec 300 (StatusCode resp)); [lia|].
  cbn [orb]. split.
  - intros ->. reflexivity.
  - intros err ->. reflexivity.
Qed.

Lemma doRequest_success_response_witness :
  let roundTrip :=
    scripted [inr {| StatusCode := 200; RetryAfter := None; Body := "par";
                     ReadErr := Some (externalError "unexpected EOF") |}]
             (respond 200 "whole") in
  let run := doRequest roundTrip acceptAll (New "u" "p" "key" "secret" "tok")
               "https://api.plan.toggl.com/api/v5/me" "GET" "" ∅ None emptyWorld in
  run.1 = ("Error reading response", Some (externalError "unexpected EOF")) ∧
  length (sent run.2) = 1%nat.
Proof.
  intros roundTrip run.
  destruct (doRequest_success_response roundTrip acceptAll
              (New "u" "p" "key" "secret" "tok")
              "https://api.plan.toggl.com/api/v5/me" "GET" "" ∅ None emptyWorld
              0%nat
              {| StatusCode := 200; RetryAfter := None; Body := "par";
                 ReadErr := Some (externalError "unexpected EOF") |}
              eq_refl ltac:(lia) ltac:(intros k Hk; lia) eq_refl ltac:(simpl; lia))
    as (Hsent & _ & Hfail).
  split; [apply Hfail; reflexivity|].
  fold run in Hsent. rewrite Hsent. reflexivity.
Defined.

(** X6: when the transport fails on every attempt, the request goes out six
    times, the waits between the attempts are 1, 2, 4, 8 and 16 seconds,
    and the result is "Error running request" with the giving-up error of
    the sixth attempt wrapping the last transport error. *)
Theorem doRequest_transport_failure
    (roundTrip : list HttpRequest -> HttpRequest -> Outcome)
    (newRequestError : string -> string -> option error)
    (pa : togglPlanApi) (url method body : string)
    (headers : gmap string string) (auth : option authDetails) (w : World)
    (last : error) :
  newRequestError method url = None →
  let req := wireRequest url method body headers auth in
  let run := doRequest roundTrip newRequestError pa url method body headers auth w in
  (∀ k, (k < 5)%nat → ∃ err, outcomeAt roundTrip (sent w) req k = inl err) →
  outcomeAt roundTrip (sent w) req 5 = inl last →
  run.1 = ("Error running request",
           Some (givingUpWrap (Method req) (URL req) 6 last)) ∧
  sent run.2 = sent w ++ replicate 6 req ∧
  slept run.2 =
    slept w ++ [1 * Second; 2 * Second; 4 * Second; 8 * Second; 16 * Second].
Proof.
  intros Hacc req run Hfail Hlast. subst run.
  rewrite (doRequest_exhausts roundTrip newRequestError pa url method body
             headers auth w Hacc).
  - fold req. rewrite Hlast. cbn [fst snd sent slept conclude].
    split; [reflexivity|]. split; [reflexivity|]. f_equal.
    unfold waitsOf. cbn [seq map].
    destruct (Hfail 0%nat) as [e0 ->]; [lia|].
    destruct (Hfail 1%nat) as [e1 ->]; [lia|].
    destruct (Hfail 2%nat) as [e2 ->]; [lia|].
    destruct (Hfail 3%nat) as [e3 ->]; [lia|].
    destruct (Hfail 4%nat) as [e4 ->]; [lia|].
    reflexivity.
  - intros k Hk. fold req.
    destruct (decide (k = 5%nat)) as [->|Hne]; [by rewrite Hlast|].
    destruct (Hfail k) as [e ->]; [lia|]. exact I.
Qed.

Lemma doRequest_transport_failure_witness :
  let roundTrip := scripted [] (inl (externalError "connection refused")) in
  let run := doRequest roundTrip acceptAll (New "u" "p" "key" "secret" "tok")
               "https://api.plan.toggl.com/api/v5/me" "GET" "" ∅ None emptyWorld in
  run.1 = ("Error running request",
           Some (givingUpWrap "GET" "https://api.plan.toggl.com/api/v5/me" 6
                   (externalError "connection refused"))) ∧
  length (sent run.2) = 6%nat.
Proof.
  intros roundTrip run.
  destruct (doRequest_transport_failure roundTrip acceptAll
              (New "u" "p" "key" "secret" "tok")
              "https://api.plan.toggl.com/api/v5/me" "GET" "" ∅ None emptyWorld
              (externalError "connection refused") eq_refl)
    as (Hres & Hsent & _).
  - intros k Hk. exists (externalError "connection refused").
    unfold outcomeAt, roundTrip, scripted. by destruct (length _).
  - reflexivity.
  - fold run in Hres, Hsent. split; [exact Hres|]. rewrite Hsent. reflexivity.
Defined.

(** X7: [doRequest] only adds to the world.  It appends between zero and
    six copies of one request to the requests on the wire, none exactly
    when the request builder rejects the method or the URL, and it sleeps
    exactly once between two consecutive attempts. *)
Theorem doRequest_world_extends
    (roundTrip : list HttpRequest -> HttpRequest -> Outcome)
    (newRequestError : string -> string -> option error)
    (pa : togglPlanApi) (url method body : string)
    (headers : gmap string string) (auth : option authDetails) (w : World) :
  let req := wireRequest url method body headers auth in
  let run := doRequest roundTrip newRequestError pa url method body headers auth w in
  ∃ (n : nat) (waits : list Z),
    sent run.2 = sent w ++ replicate n req ∧
    slept run.2 = slept w ++ waits ∧
    (n ≤ 6)%nat ∧
    length waits = Nat.pred n ∧
    (n = 0%nat ↔ ∃ err, newRequestError method url = Some err).
Proof.
  intros req run. subst run.
  destruct (newRequestError method url) as [err|] eqn:Hnre.
  - rewrite (doRequest_rejected _ _ _ _ _ _ _ _ _ err Hnre).
    exists 0%nat, []. cbn [fst snd]. rewrite !app_nil_r.
    split; [reflexivity|]. split; [reflexivity|]. split; [lia|].
    split; [reflexivity|]. split; [by exists err|reflexivity].
  - destruct (doRequest_trace roundTrip newRequestError pa url method body
                headers auth w Hnre) as (n & Hn & _ & _ & Heq).
    fold req in Heq. rewrite Heq. cbn [fst snd sent slept].
    exists (S n), (waitsOf roundTrip retryClient (sent w) req 0 n).
    split; [reflexivity|]. split; [reflexivity|]. split; [lia|].
    split; [by rewrite waitsOf_length|].
    split; [discriminate|]. intros [err Herr]. discriminate Herr.
Qed.

Lemma waitsOf_exponential roundTrip hist req n :
  (n ≤ 5)%nat →
  (∀ k, (k < 5)%nat → serverDelay (outcomeAt roundTrip hist req k) = None) →
  waitsOf roundTrip retryClient hist req 0 n =
    map (λ k, 2 ^ Z.of_nat k * Second) (seq 0 n).
Proof.
  intros Hn Hplain. unfold waitsOf. apply map_ext_in. intros k Hk.
  apply in_seq in Hk. cbn [retryClient Backoff RetryWaitMin RetryWaitMax Nat.add].
  rewrite DefaultBackoff_serverDelay, Hplain by lia.
  apply exponentialWait_schedule. lia.
Qed.

(** X8: when no answer carries a [Retry-After] value that the backoff
    honours, one run of [doRequest] sleeps at most 31 seconds in total. *)
Theorem doRequest_total_wait
    (roundTrip : list HttpRequest -> HttpRequest -> Outcome)
    (newRequestError : string -> string -> option error)
    (pa : togglPlanApi) (url method body : string)
    (headers : gmap string string) (auth : option authDetails) (w : World) :
  let req := wireRequest url method body headers auth in
  let run := doRequest roundTrip newRequestError pa url method body headers auth w in
  (∀ k, (k < 5)%nat → serverDelay (outcomeAt roundTrip (sent w) req k) = None) →
  ∃ waits : list Z,
    slept run.2 = slept w ++ waits ∧
    0 ≤ totalWait waits ≤ 31 * Second.
Proof.
  intros req run Hplain. subst run.
  destruct (newRequestError method url) as [err|] eqn:Hnre.
  - rewrite (doRequest_rejected _ _ _ _ _ _ _ _ _ err Hnre).
    exists []. cbn [fst snd]. rewrite app_nil_r. split; [reflexivity|].
    vm_compute. split; discriminate.
  - destruct (doRequest_trace roundTrip newRequestError pa url method body
                headers auth w Hnre) as (n & Hn & _ & _ & Heq).
    fold req in Heq. rewrite Heq. cbn [fst snd slept].
    exists (waitsOf roundTrip retryClient (sent w) req 0 n).
    split; [reflexivity|].
    rewrite (waitsOf_exponential roundTrip (sent w) req n Hn Hplain).
    destruct n as [|[|[|[|[|[|n]]]]]]; [| | | | | |lia];
      vm_compute; split; discriminate.
Qed.

Lemma doRequest_total_wait_witness :
  let run := doRequest always500 acceptAll (New "u" "p" "key" "secret" "tok")
               "https://api.plan.toggl.com/api/v5/me" "GET" "" ∅ None emptyWorld in
  ∃ waits : list Z, slept run.2 = waits ∧ 0 ≤ totalWait waits ≤ 31 * Second.
Proof.
  intros run.
  destruct (doRequest_total_wait always500 acceptAll
              (New "u" "p" "key" "secret" "tok")
              "https://api.plan.toggl.com/api/v5/me" "GET" "" ∅ None emptyWorld)
    as (waits & Hslept & Hbound).
  - intros k Hk. unfold outcomeAt, always500, scripted.
    by destruct (length _).
  - exists waits. split; [exact Hslept|exact Hbound].
Defined.

(** ** Further properties of [getToken] and [Request] *)

(** X9: when the request builder rejects the method or the URL of a call
    made with a cached token, [Request] returns "Error building request"
    with the builder's error; nothing is sent, nothing is slept and the
    client is unchanged. *)
Theorem Request_rejected_call
    (roundTrip : list HttpRequest -> HttpRequest -> Outcome)
    (newRequestError : string -> string -> option error)
    (jsonUnmarshal : string -> error + TokenResponse)
    (pa : togglPlanApi) (url method body : string)
    (headers : gmap string string) (w : World) (err : error) :
  bearerToken pa ≠ "" →
  newRequestError method url = Some err →
  Request roundTrip newRequestError jsonUnmarshal pa url method body headers w =
    (("Error building request", Some err), pa, w).
Proof.
  intros Hfull Hrej. rewrite Request_unfold. rewrite decide_False by exact Hfull.
  rewrite sendWithBearer_unfold. cbn zeta.
  by rewrite (doRequest_rejected _ _ _ _ _ _ _ _ _ err Hrej).
Qed.

Lemma Request_rejected_call_witness :
  let rejectSpaces : string -> string -> option error :=
    λ method _, if decide (method = "GE T")
                then Some (externalError "net/http: invalid method")
                else None in
  Request always500 rejectSpaces flatDecoder (New "u" "p" "key" "secret" "tok")
    "https://api.plan.toggl.com/api/v5/me" "GE T" "" ∅ emptyWorld =
  (("Error building request", Some (externalError "net/http: invalid method")),
   New "u" "p" "key" "secret" "tok", emptyWorld).
Proof.
  intros rejectSpaces.
  apply (Request_rejected_call always500 rejectSpaces flatDecoder
           (New "u" "p" "key" "secret" "tok")).
  - discriminate.
  - reflexivity.
Defined.

(** X10: when the client has no token and the token endpoint's first answer
    is a status that is neither retried nor in 200-299, [Request] gives up
    at once: it returns "Couldn't authenticate" with the error of that
    status ("401" for a 401, the status text otherwise), exactly one token
    request went out, and the client still has no token. *)
Theorem Request_token_refused
    (roundTrip : list HttpRequest -> HttpRequest -> Outcome)
    (newRequestError : string -> string -> option error)
    (jsonUnmarshal : string -> error + TokenResponse)
    (pa : togglPlanApi) (url method body : string)
    (headers : gmap string string) (w : World) (resp : HttpResponse) :
  bearerToken pa = "" →
  newRequestError "POST" tokenURL = None →
  outcomeAt roundTrip (sent w) (tokenRequest pa) 0 = inr resp →
  ¬ retryable (inr resp) →
  ¬ (200 ≤ StatusCode resp ≤ 299) →
  Request roundTrip newRequestError jsonUnmarshal pa url method body headers w =
    (("Couldn't authenticate",
      Some (errorString (if StatusCode resp =? 401 then "401"
                         else StatusText (StatusCode resp)))),
     pa,
     {| sent := sent w ++ [tokenRequest pa]; slept := slept w |}).
Proof.
  intros Hempty Hacc Hout Hstop Hcode.
  assert (fetchToken roundTrip newRequestError pa w =
          ((if StatusCode resp =? 401 then "Unauthorized"
            else pretty (StatusCode resp),
            Some (errorString (if StatusCode resp =? 401 then "401"
                               else StatusText (StatusCode resp)))),
           {| sent := sent w ++ [tokenRequest pa]; slept := slept w |})) as Hfetch.
  { unfold fetchToken.
    rewrite (doRequest_stops_at roundTrip newRequestError pa tokenURL "POST"
               (tokenBody pa) tokenHeaders (Some (tokenAuth pa)) w 0 Hacc).
    - fold (tokenRequest pa). rewrite Hout.
      unfold waitsOf. cbn [seq map replicate]. rewrite app_nil_r.
      unfold conclude.
      apply checkRetry_not_retryable in Hstop. rewrite Hstop.
      destruct (Z.eqb_spec (StatusCode resp) 401); [reflexivity|].
      rewrite Z.geb_leb.
      destruct (Z.ltb_spec (StatusCode resp) 200); [reflexivity|].
      destruct (Z.leb_spec 300 (StatusCode resp)); [reflexivity|]. lia.
    - lia.
    - intros k Hk. lia.
    - fold (tokenRequest pa). by rewrite Hout. }
  rewrite Request_unfold. rewrite decide_True by exact Hempty.
  rewrite getToken_fetch. cbn zeta. rewrite Hfetch. reflexivity.
Qed.

Lemma Request_token_refused_witness :
  let roundTrip := scripted [respond 403 ""] (respond 200 "unreached") in
  let pa := New "user" "wrong" "key" "secret" "" in
  let run := Request roundTrip acceptAll flatDecoder pa
               "https://api.plan.toggl.com/api/v5/me" "GET" "" ∅ emptyWorld in
  run.1 = (("Couldn't authenticate", Some (errorString "Forbidden")), pa) ∧
  sent run.2 = [tokenRequest pa].
Proof.
  intros roundTrip pa run. subst run.
  rewrite (Request_token_refused roundTrip acceptAll flatDecoder pa
             "https://api.plan.toggl.com/api/v5/me" "GET" "" ∅ emptyWorld
             {| StatusCode := 403; RetryAfter := None; Body := "";
                ReadErr := None |}).
  - split; reflexivity.
  - reflexivity.
  - reflexivity.
  - reflexivity.
  - simpl. lia.
  - simpl. lia.
Defined.

(** X11: a cached token that the server answers with 401 is neither cleared
    nor refreshed.  [Request] returns "Unauthorized" with the error "401"
    after a single request carrying the cached token, sends no token
    request, and hands back the client with the same token. *)
Theorem Request_stale_token
    (roundTrip : list HttpRequest -> HttpRequest -> Outcome)
    (newRequestError : string -> string -> option error)
    (jsonUnmarshal : string -> error + TokenResponse)
    (pa : togglPlanApi) (url method body : string)
    (headers : gmap string string) (w : World) (resp : HttpResponse) :
  bearerToken pa ≠ "" →
  newRequestError method url = None →
  let req := bearerRequest (bearerToken pa) url method body headers in
  outcomeAt roundTrip (sent w) req 0 = inr resp →
  StatusCode resp = 401 →
  Request roundTrip newRequestError jsonUnmarshal pa url method body headers w =
    (("Unauthorized", Some (errorString "401")), pa,
     {| sent := sent w ++ [req]; slept := slept w |}) ∧
  Header req !! "Authorization" = Some ("Bearer " +:+ bearerToken pa) ∧
  ∀ other, req ≠ tokenRequest other.
Proof.
  intros Hfull Hacc req Hout Hcode.
  split; [|split].
  - rewrite Request_unfold. rewrite decide_False by exact Hfull.
    rewrite sendWithBearer_unfold. cbn zeta.
    rewrite (doRequest_stops_at roundTrip newRequestError pa url method body
               (mergeMaps defaultHeaders headers)
               (Some (bearerAuth (bearerToken pa))) w 0 Hacc).
    + fold (bearerRequest (bearerToken pa) url method body headers). fold req.
      rewrite Hout. unfold waitsOf. cbn [seq map replicate fst snd].
      rewrite app_nil_r. unfold conclude. simpl. rewrite Hcode. reflexivity.
    + lia.
    + intros k Hk. lia.
    + fold (bearerRequest (bearerToken pa) url method body headers). fold req.
      rewrite Hout. simpl. lia.
  - apply prepare_Authorization.
  - intros other. apply bearerRequest_not_tokenRequest.
Qed.

Lemma Request_stale_token_witness :
  let roundTrip := scripted [respond 401 ""] (respond 200 "unreached") in
  let pa := New "user" "pass" "key" "secret" "expired" in
  let run := Request roundTrip acceptAll flatDecoder pa
               "https://api.plan.toggl.com/api/v5/me" "GET" "" ∅ emptyWorld in
  run.1 = (("Unauthorized", Some (errorString "401")), pa) ∧
  length (sent run.2) = 1%nat.
Proof.
  intros roundTrip pa run.
  destruct (Request_stale_token roundTrip acceptAll flatDecoder pa
              "https://api.plan.toggl.com/api/v5/me" "GET" "" ∅ emptyWorld
              {| StatusCode := 401; RetryAfter := None; Body := "";
                 ReadErr := None |})
    as (Hrun & _).
  - discriminate.
  - reflexivity.
  - reflexivity.
  - reflexivity.
  - fold run in Hrun. rewrite Hrun. split; reflexivity.
Defined.

(** X12: a call of [Request] that had to fetch a token goes on exactly as a
    call on a client that already holds the fetched token, started in the
    world the fetch left. *)
Theorem Request_fetch_then_cached
    (roundTrip : list HttpRequest -> HttpRequest -> Outcome)
    (newRequestError : string -> string -> option error)
    (jsonUnmarshal : string -> error + TokenResponse)
    (pa : togglPlanApi) (url method body : string)
    (headers : gmap string string) (w : World) (token : string) :
  bearerToken pa = "" →
  let fetch := getToken roundTrip newRequestError jsonUnmarshal pa w in
  fetch.1 = (token, None) →
  Request roundTrip newRequestError jsonUnmarshal pa url method body headers w =
  Request roundTrip newRequestError jsonUnmarshal (setBearerToken pa token)
    url method body headers fetch.2.
Proof.
  intros Hempty fetch Hfetch.
  destruct (getToken_success _ _ _ _ _ _ Hfetch) as [Hne _].
  rewrite (Request_unfold _ _ _ pa). rewrite decide_True by exact Hempty.
  cbn zeta. fold fetch. rewrite Hfetch. cbn [fst snd].
  rewrite (Request_unfold _ _ _ (setBearerToken pa token)).
  by rewrite decide_False.
Qed.

Lemma Request_fetch_then_cached_witness :
  let roundTrip := scripted [respond 200 (tokenDocument "T0K"); respond 200 "me"]
                     (respond 500 "") in
  let pa := New "user" "pass" "key" "secret" "" in
  let fetch := getToken roundTrip acceptAll flatDecoder pa emptyWorld in
  Request roundTrip acceptAll flatDecoder pa
    "https://api.plan.toggl.com/api/v5/me" "GET" "" ∅ emptyWorld =
  Request roundTrip acceptAll flatDecoder (New "user" "pass" "key" "secret" "T0K")
    "https://api.plan.toggl.com/api/v5/me" "GET" "" ∅ fetch.2.
Proof.
  intros roundTrip pa fetch.
  apply (Request_fetch_then_cached roundTrip acceptAll flatDecoder pa
           "https://api.plan.toggl.com/api/v5/me" "GET" "" ∅ emptyWorld "T0K").
  - reflexivity.
  - vm_compute. reflexivity.
Defined.

(** X13: when the token endpoint's first answer has a status in 200-299, a
    readable body, and the body decodes to a non-empty [access_token],
    [getToken] returns that token with a nil error after exactly one
    request and no sleep. *)
Theorem getToken_granted
    (roundTrip : list HttpRequest -> HttpRequest -> Outcome)
    (newRequestError : string -> string -> option error)
    (jsonUnmarshal : string -> error + TokenResponse)
    (pa : togglPlanApi) (w : World) (resp : HttpResponse)
    (tokenResponse : TokenResponse) :
  newRequestError "POST" tokenURL = None →
  outcomeAt roundTrip (sent w) (tokenRequest pa) 0 = inr resp →
  200 ≤ StatusCode resp ≤ 299 →
  ReadErr resp = None →
  jsonUnmarshal (Body resp) = inr tokenResponse →
  AccessToken tokenResponse ≠ "" →
  getToken roundTrip newRequestError jsonUnmarshal pa w =
    ((AccessToken tokenResponse, None),
     {| sent := sent w ++ [tokenRequest pa]; slept := slept w |}).
Proof.
  intros Hacc Hout Hcode Hread Hjson Hfull.
  assert (fetchToken roundTrip newRequestError pa w =
          ((Body resp, None),
           {| sent := sent w ++ [tokenRequest pa]; slept := slept w |})) as Hfetch.
  { unfold fetchToken.
    rewrite (doRequest_stops_at roundTrip newRequestError pa tokenURL "POST"
               (tokenBody pa) tokenHeaders (Some (tokenAuth pa)) w 0 Hacc).
    - fold (tokenRequest pa). rewrite Hout.
      unfold waitsOf. cbn [seq map replicate]. rewrite app_nil_r.
      unfold conclude.
      assert ((checkRetry (inr resp)).1 = false) as ->.
      { apply checkRetry_not_retryable. simpl. lia. }
      destruct (Z.eqb_spec (StatusCode resp) 401); [lia|].
      rewrite Z.geb_leb.
      destruct (Z.ltb_spec (StatusCode resp) 200); [lia|].
      destruct (Z.leb_spec 300 (StatusCode resp)); [lia|].
      cbn [orb]. by rewrite Hread.
    - lia.
    - intros k Hk. lia.
    - fold (tokenRequest pa). rewrite Hout. simpl. lia. }
  rewrite getToken_fetch. cbn zeta. rewrite Hfetch. cbn [fst snd].
  rewrite Hjson. by rewrite decide_False.
Qed.

Lemma getToken_granted_witness :
  let roundTrip := scripted [respond 200 (tokenDocument "T0K")] (respond 500 "") in
  let pa := New "user" "pass" "key" "secret" "" in
  getToken roundTrip acceptAll flatDecoder pa emptyWorld =
    (("T0K", None), {| sent := [tokenRequest pa]; slept := [] |}).
Proof.
  intros roundTrip pa.
  apply (getToken_granted roundTrip acceptAll flatDecoder pa emptyWorld
           {| StatusCode := 200; RetryAfter := None;
              Body := tokenDocument "T0K"; ReadErr := None |}
           {| AccessToken := "T0K" |}).
  - reflexivity.
  - reflexivity.
  - simpl. lia.
  - reflexivity.
  - reflexivity.
  - discriminate.
Defined.

(** X14: when the request builder rejects the token request, a client
    without a token cannot authenticate: [Request] returns
    "Couldn't authenticate" with the builder's error, sends nothing and
    leaves the client and the world as they were. *)
Theorem Request_token_request_rejected
    (roundTrip : list HttpRequest -> HttpRequest -> Outcome)
    (newRequestError : string -> string -> option error)
    (jsonUnmarshal : string -> error + TokenResponse)
    (pa : togglPlanApi) (url method body : string)
    (headers : gmap string string) (w : World) (err : error) :
  bearerToken pa = "" →
  newRequestError "POST" tokenURL = Some err →
  Request roundTrip newRequestError jsonUnmarshal pa url method body headers w =
    (("Couldn't authenticate", Some err), pa, w).
Proof.
  intros Hempty Hrej. rewrite Request_unfold. rewrite decide_True by exact Hempty.
  rewrite getToken_fetch. cbn zeta. unfold fetchToken.
  by rewrite (doRequest_rejected _ _ _ _ _ _ _ _ _ err Hrej).
Qed.

Lemma Request_token_request_rejected_witness :
  let rejectAll : string -> string -> option error :=
    λ _ _, Some (externalError "parse error") in
  let pa := New "user" "pass" "key" "secret" "" in
  Request always500 rejectAll flatDecoder pa
    "https://api.plan.toggl.com/api/v5/me" "GET" "" ∅ emptyWorld =
  (("Couldn't authenticate", Some (externalError "parse error")), pa, emptyWorld).
Proof.
  intros rejectAll pa.
  apply (Request_token_request_rejected always500 rejectAll flatDecoder pa).
  - reflexivity.
  - reflexivity.
Defined.

(** ** Series of calls on one client *)

Lemma getToken_success_sent roundTrip newRequestError jsonUnmarshal pa w token :
  (getToken roundTrip newRequestError jsonUnmarshal pa w).1 = (token, None) →
  ∃ n : nat,
    (1 ≤ n ≤ 6)%nat ∧
    sent (getToken roundTrip newRequestError jsonUnmarshal pa w).2 =
      sent w ++ replicate n (tokenRequest pa).
Proof.
  intros Hfetch.
  destruct (getToken_success _ _ _ _ _ _ Hfetch) as (_ & data & tr & Hdata & _).
  rewrite getToken_world. unfold fetchToken in *.
  destruct (doRequest_sent roundTrip newRequestError pa tokenURL "POST"
              (tokenBody pa) tokenHeaders (Some (tokenAuth pa)) w)
    as (n & Hn & Hpos & Hsent).
  exists n. split; [|exact Hsent]. split; [|exact Hn].
  apply Hpos.
  destruct (newRequestError "POST" tokenURL) as [err|] eqn:Hnre; [|reflexivity].
  rewrite (doRequest_rejected _ _ _ _ _ _ _ _ _ err Hnre) in Hdata.
  discriminate Hdata.
Qed.

Lemma Request_after_fetch roundTrip newRequestError jsonUnmarshal pa url method
    body headers w token :
  bearerToken pa = "" →
  (getToken roundTrip newRequestError jsonUnmarshal pa w).1 = (token, None) →
  token ≠ "" ∧
  Request roundTrip newRequestError jsonUnmarshal pa url method body headers w =
  Request roundTrip newRequestError jsonUnmarshal (setBearerToken pa token)
    url method body headers
    (getToken roundTrip newRequestError jsonUnmarshal pa w).2.
Proof.
  intros Hempty Hfetch.
  destruct (getToken_success _ _ _ _ _ _ Hfetch) as [Hne _].
  split; [exact Hne|].
  rewrite (Request_unfold _ _ _ pa). rewrite decide_True by exact Hempty.
  cbn zeta. rewrite Hfetch. cbn [fst snd].
  rewrite (Request_unfold _ _ _ (setBearerToken pa token)).
  by rewrite decide_False.
Qed.

Lemma Request_cached_sent roundTrip newRequestError jsonUnmarshal pa c w :
  bearerToken pa ≠ "" →
  ∃ m : nat,
    (m ≤ 6)%nat ∧
    (Request roundTrip newRequestError jsonUnmarshal pa
       (callURL c) (callMethod c) (callBody c) (callHeaders c) w).1.2 = pa ∧
    sent (Request roundTrip newRequestError jsonUnmarshal pa
            (callURL c) (callMethod c) (callBody c) (callHeaders c) w).2 =
      sent w ++ replicate m (callRequest (bearerToken pa) c).
Proof.
  intros Hfull. rewrite Request_unfold. rewrite decide_False by exact Hfull.
  rewrite sendWithBearer_unfold. cbn zeta. cbn [fst snd].
  destruct (doRequest_sent roundTrip newRequestError pa (callURL c) (callMethod c)
              (callBody c) (mergeMaps defaultHeaders (callHeaders c))
              (Some (bearerAuth (bearerToken pa))) w) as (m & Hm & _ & Hs).
  exists m. split; [exact Hm|]. split; [reflexivity|exact Hs].
Qed.

Lemma runRequests_cached_trace roundTrip newRequestError jsonUnmarshal calls pa w :
  bearerToken pa ≠ "" →
  ∃ counts : list nat,
    length counts = length calls ∧
    Forall (λ n, (n ≤ 6)%nat) counts ∧
    (runRequests roundTrip newRequestError jsonUnmarshal calls pa w).1.2 = pa ∧
    length (runRequests roundTrip newRequestError jsonUnmarshal calls pa w).1.1 =
      length calls ∧
    sent (runRequests roundTrip newRequestError jsonUnmarshal calls pa w).2 =
      sent w ++ seriesRequests (bearerToken pa) calls counts.
Proof.
  intros Hfull. revert w. induction calls as [|c calls IH]; intros w.
  - exists []. simpl. rewrite app_nil_r. repeat split; constructor.
  - simpl.
    destruct (Request_cached_sent roundTrip newRequestError jsonUnmarshal pa c w
                Hfull) as (m & Hm & Hpa & Hsent).
    destruct (Request _ _ _ _ _ _ _ _ _) as [[result pa1] w1].
    cbn [fst snd] in Hpa, Hsent. subst pa1.
    destruct (IH w1) as (counts & Hlen & Hall & Hpa & Hres & Hs).
    destruct (runRequests _ _ _ _ _ _) as [[results pa2] w2].
    cbn [fst snd] in *.
    exists (m :: counts). simpl. rewrite Hlen, Hres.
    split; [reflexivity|]. split; [by constructor|].
    split; [exact Hpa|]. split; [reflexivity|].
    rewrite Hs, Hsent. unfold seriesRequests. simpl.
    by rewrite <- !app_assoc.
Qed.

(** X15: one token fetch serves a whole series of calls.  When the first
    call of a series on a client without a token fetches a token, the
    series sends the token requests of that one fetch, then, call after
    call, between zero and six copies of the call's request with
    [Authorization: Bearer] and the fetched token; there is one result per
    call and the client ends with the fetched token. *)
Theorem runRequests_single_fetch
    (roundTrip : list HttpRequest -> HttpRequest -> Outcome)
    (newRequestError : string -> string -> option error)
    (jsonUnmarshal : string -> error + TokenResponse)
    (pa : togglPlanApi) (w : World) (token : string)
    (c : Call) (calls : list Call) :
  bearerToken pa = "" →
  (getToken roundTrip newRequestError jsonUnmarshal pa w).1 = (token, None) →
  let run := runRequests roundTrip newRequestError jsonUnmarshal (c :: calls) pa w in
  run.1.2 = setBearerToken pa token ∧
  length run.1.1 = S (length calls) ∧
  ∃ (n : nat) (counts : list nat),
    (1 ≤ n ≤ 6)%nat ∧
    length counts = S (length calls) ∧
    Forall (λ k, (k ≤ 6)%nat) counts ∧
    sent run.2 =
      sent w ++ replicate n (tokenRequest pa) ++
      seriesRequests token (c :: calls) counts.
Proof.
  intros Hempty Hfetch run.
  destruct (Request_after_fetch roundTrip newRequestError jsonUnmarshal pa
              (callURL c) (callMethod c) (callBody c) (callHeaders c) w token
              Hempty Hfetch) as [Hne Hreq].
  assert (run =
          runRequests roundTrip newRequestError jsonUnmarshal (c :: calls)
            (setBearerToken pa token)
            (getToken roundTrip newRequestError jsonUnmarshal pa w).2) as ->.
  { subst run. simpl. by rewrite Hreq. }
  destruct (runRequests_cached_trace roundTrip newRequestError jsonUnmarshal
              (c :: calls) (setBearerToken pa token)
              (getToken roundTrip newRequestError jsonUnmarshal pa w).2)
    as (counts & Hlen & Hall & Hpa & Hres & Hs); [exact Hne|].
  destruct (getToken_success_sent _ _ _ _ _ _ Hfetch) as (n & Hn & Hts).
  split; [exact Hpa|]. split; [exact Hres|].
  exists n, counts. split; [exact Hn|]. split; [exact Hlen|].
  split; [exact Hall|].
  rewrite Hs, Hts. cbn [bearerToken setBearerToken]. by rewrite <- app_assoc.
Qed.

Lemma runRequests_single_fetch_witness :
  let roundTrip :=
    scripted [respond 200 (tokenDocument "T0K"); respond 200 "me"; respond 200 "me"]
             (respond 500 "") in
  let pa := New "user" "pass" "key" "secret" "" in
  let me := {| callURL := "https://api.plan.toggl.com/api/v5/me";
               callMethod := "GET"; callBody := ""; callHeaders := ∅ |} in
  let run := runRequests roundTrip acceptAll flatDecoder [me; me] pa emptyWorld in
  bearerToken run.1.2 = "T0K" ∧ length run.1.1 = 2%nat.
Proof.
  intros roundTrip pa me run.
  destruct (runRequests_single_fetch roundTrip acceptAll flatDecoder pa
              emptyWorld "T0K" me [me]) as (Hpa & Hres & _).
  - reflexivity.
  - vm_compute. reflexivity.
  - fold run in Hpa, Hres. rewrite Hpa. split; [reflexivity|exact Hres].
Defined.

Lemma doRequest_grows roundTrip newRequestError pa url method body headers auth w :
  ∃ (added : list HttpRequest) (waits : list Z),
    sent (doRequest roundTrip newRequestError pa url method body headers auth w).2 =
      sent w ++ added ∧
    slept (doRequest roundTrip newRequestError pa url method body headers auth w).2 =
      slept w ++ waits ∧
    (length added ≤ 6)%nat ∧ (length waits ≤ 5)%nat.
Proof.
  destruct (newRequestError method url) as [err|] eqn:Hnre.
  - rewrite (doRequest_rejected _ _ _ _ _ _ _ _ _ err Hnre).
    exists [], []. cbn [fst snd length]. rewrite !app_nil_r.
    repeat split; lia.
  - destruct (doRequest_trace roundTrip newRequestError pa url method body
                headers auth w Hnre) as (n & Hn & _ & _ & Heq).
    rewrite Heq. cbn [fst snd sent slept].
    eexists _, _. split; [reflexivity|]. split; [reflexivity|].
    rewrite length_replicate, waitsOf_length. lia.
Qed.

(** X16: one call of [Request] only adds to the world, and not much: at
    most twelve requests and ten sleeps, and at most six requests and five
    sleeps when the client already holds a token. *)
Theorem Request_traffic_bound
    (roundTrip : list HttpRequest -> HttpRequest -> Outcome)
    (newRequestError : string -> string -> option error)
    (jsonUnmarshal : string -> error + TokenResponse)
    (pa : togglPlanApi) (url method body : string)
    (headers : gmap string string) (w : World) :
  let run := Request roundTrip newRequestError jsonUnmarshal pa url method
               body headers w in
  ∃ (added : list HttpRequest) (waits : list Z),
    sent run.2 = sent w ++ added ∧
    slept run.2 = slept w ++ waits ∧
    (length added ≤ 12)%nat ∧ (length waits ≤ 10)%nat ∧
    (bearerToken pa ≠ "" → (length added ≤ 6)%nat ∧ (length waits ≤ 5)%nat).
Proof.
  intros run. subst run. rewrite Request_unfold.
  destruct (decide (bearerToken pa = "")) as [Hempty|Hfull].
  - cbn zeta.
    destruct (doRequest_grows roundTrip newRequestError pa tokenURL "POST"
                (tokenBody pa) tokenHeaders (Some (tokenAuth pa)) w)
      as (a1 & w1 & Hs1 & Hw1 & Ha1 & Hl1).
    fold (fetchToken roundTrip newRequestError pa w) in Hs1, Hw1.
    rewrite <- getToken_world with (jsonUnmarshal := jsonUnmarshal) in Hs1, Hw1.
    destruct ((getToken roundTrip newRequestError jsonUnmarshal pa w).1.2)
      as [err|].
    + exists a1, w1. cbn [fst snd].
      split; [exact Hs1|]. split; [exact Hw1|].
      split; [lia|]. split; [lia|]. intros Hne. contradiction.
    + rewrite sendWithBearer_unfold. cbn zeta. cbn [fst snd].
      match goal with
      | |- context [doRequest ?rt ?nre ?p ?u ?m ?b ?h ?a ?w0] =>
          destruct (doRequest_grows rt nre p u m b h a w0)
            as (a2 & w2 & Hs2 & Hw2 & Ha2 & Hl2)
      end.
      exists (a1 ++ a2), (w1 ++ w2).
      rewrite Hs2, Hw2, Hs1, Hw1, <- !app_assoc, !length_app.
      split; [reflexivity|]. split; [reflexivity|].
      split; [lia|]. split; [lia|]. intros Hne. contradiction.
  - rewrite sendWithBearer_unfold. cbn zeta. cbn [fst snd].
    match goal with
    | |- context [doRequest ?rt ?nre ?p ?u ?m ?b ?h ?a ?w0] =>
        destruct (doRequest_grows rt nre p u m b h a w0)
          as (a2 & w2 & Hs2 & Hw2 & Ha2 & Hl2)
    end.
    exists a2, w2. split; [exact Hs2|]. split; [exact Hw2|].
    split; [lia|]. split; [lia|]. intros _. split; lia.
Qed.

Lemma Request_traffic_bound_witness :
  let pa := New "user" "pass" "key" "secret" "T0K" in
  let run := Request always500 acceptAll flatDecoder pa
               "https://api.plan.toggl.com/api/v5/me" "GET" "" ∅ emptyWorld in
  ∃ (added : list HttpRequest) (waits : list Z),
    sent run.2 = added ∧ slept run.2 = waits ∧
    (length added ≤ 6)%nat ∧ (length waits ≤ 5)%nat.
Proof.
  intros pa run.
  destruct (Request_traffic_bound always500 acceptAll flatDecoder pa
              "https://api.plan.toggl.com/api/v5/me" "GET" "" ∅ emptyWorld)
    as (added & waits & Hsent & Hslept & _ & _ & Hcached).
  destruct Hcached as [Ha Hw]; [discriminate|].
  exists added, waits. split; [exact Hsent|]. split; [exact Hslept|].
  split; [exact Ha|exact Hw].
Defined.

(** X17: the test [TestNormalRequest].  When the token fetch of its first
    call succeeds, the test's client ends with the fetched token, and the
    requests it sends are the token requests of that one fetch followed by
    copies of one and the same request to the endpoint, carrying
    [Authorization: Bearer] with the fetched token; the second call sends
    no token request.  When that fetch fails, the first result is
    "Couldn't authenticate" with the error of the fetch. *)
Theorem TestNormalRequest_trace
    (roundTrip : list HttpRequest -> HttpRequest -> Outcome)
    (newRequestError : string -> string -> option error)
    (jsonUnmarshal : string -> error + TokenResponse) (w : World) :
  let pa := New testUsername testPassword testClientId testClientSecret "" in
  let fetch := getToken roundTrip newRequestError jsonUnmarshal pa w in
  let run := TestNormalRequest roundTrip newRequestError jsonUnmarshal w in
  (∀ token, fetch.1 = (token, None) →
     let req := bearerRequest token "https://api.plan.toggl.com/api/v5/me"
                  "GET" "" ∅ in
     run.1.2 = setBearerToken pa token ∧
     Header req !! "Authorization" = Some ("Bearer " +:+ token) ∧
     (∀ other, req ≠ tokenRequest other) ∧
     ∃ n m : nat,
       (1 ≤ n ≤ 6)%nat ∧ (m ≤ 12)%nat ∧
       sent run.2 = sent w ++ replicate n (tokenRequest pa) ++ replicate m req) ∧
  (∀ message err, fetch.1 = (message, Some err) →
     run.1.1.1 = ("Couldn't authenticate", Some err)).
Proof.
  intros pa fetch run. split.
  - intros token Hfetch req.
    destruct (Request_after_fetch roundTrip newRequestError jsonUnmarshal pa
                "https://api.plan.toggl.com/api/v5/me" "GET" "" ∅ w token
                eq_refl Hfetch) as [Hne Hreq].
    set (me := {| callURL := "https://api.plan.toggl.com/api/v5/me";
                  callMethod := "GET"; callBody := ""; callHeaders := ∅ |}).
    destruct (Request_cached_sent roundTrip newRequestError jsonUnmarshal
                (setBearerToken pa token) me fetch.2 Hne)
      as (m1 & Hm1 & Hpa1 & Hs1).
    cbn [callURL callMethod callBody callHeaders me] in Hpa1, Hs1.
    fold fetch in Hreq. rewrite <- Hreq in Hpa1, Hs1.
    subst run. unfold TestNormalRequest. fold pa.
    destruct (Request roundTrip newRequestError jsonUnmarshal pa
                "https://api.plan.toggl.com/api/v5/me" "GET" "" ∅ w)
      as [[result pa1] w1].
    cbn [fst snd] in Hpa1, Hs1. subst pa1.
    destruct (Request_cached_sent roundTrip newRequestError jsonUnmarshal
                (setBearerToken pa token) me w1 Hne)
      as (m2 & Hm2 & Hpa2 & Hs2).
    cbn [callURL callMethod callBody callHeaders me] in Hpa2, Hs2.
    destruct (Request roundTrip newRequestError jsonUnmarshal
                (setBearerToken pa token)
                "https://api.plan.toggl.com/api/v5/me" "GET" "" ∅ w1)
      as [[result2 pa2] w2].
    cbn [fst snd] in *. subst pa2.
    split; [reflexivity|]. split; [apply prepare_Authorization|].
    split; [intros other; apply bearerRequest_not_tokenRequest|].
    destruct (getToken_success_sent _ _ _ _ _ _ Hfetch) as (n & Hn & Hts).
    fold fetch in Hts.
    exists n, (m1 + m2)%nat. split; [exact Hn|]. split; [lia|].
    rewrite Hs2, Hs1, Hts. unfold callRequest, me.
    cbn [callURL callMethod callBody callHeaders bearerToken setBearerToken].
    fold req. by rewrite replicate_add, <- !app_assoc.
  - intros message err Hfetch.
    subst run. unfold TestNormalRequest. fold pa.
    rewrite (Request_unfold _ _ _ pa). rewrite decide_True by reflexivity.
    cbn zeta. fold fetch. rewrite Hfetch. cbn [fst snd].
    destruct (Request _ _ _ _ _ _ _ _ _) as [[result2 pa2] w2]. reflexivity.
Qed.

Lemma TestNormalRequest_trace_witness :
  let roundTrip :=
    scripted [respond 200 (tokenDocument "T0K"); respond 200 "me"; respond 200 "me"]
             (respond 500 "") in
  let run := TestNormalRequest roundTrip acceptAll flatDecoder emptyWorld in
  bearerToken run.1.2 = "T0K" ∧
  ∃ n m : nat, (1 ≤ n ≤ 6)%nat ∧ (m ≤ 12)%nat ∧
    length (sent run.2) = (n + m)%nat.
Proof.
  intros roundTrip run.
  destruct (TestNormalRequest_trace roundTrip acceptAll flatDecoder emptyWorld)
    as (Hok & _).
  destruct (Hok "T0K") as (Hpa & _ & _ & n & m & Hn & Hm & Hsent).
  { vm_compute. reflexivity. }
  fold run in Hpa, Hsent. split; [by rewrite Hpa|].
  exists n, m. split; [exact Hn|]. split; [exact Hm|].
  rewrite Hsent. cbn [sent emptyWorld app].
  by rewrite length_app, !length_replicate.
Defined.

(** ** Header names and credentials on the wire *)

Lemma canonical_byte_stable (upper : bool) (c : ascii) :
  let c' :=
    if upper && isLower c then ascii_of_N (N_of_ascii c - 32)
    else if negb upper && isUpper c then ascii_of_N (N_of_ascii c + 32)
    else c in
  (if upper && isLower c' then ascii_of_N (N_of_ascii c' - 32)
   else if negb upper && isUpper c' then ascii_of_N (N_of_ascii c' + 32)
   else c') = c' ∧
  validHeaderFieldByte c' = validHeaderFieldByte c.
Proof.
  destruct upper, c as [[] [] [] [] [] [] [] []]; vm_compute; split; reflexivity.
Qed.

Lemma canonicalCase_idempotent (s : string) (upper : bool) :
  canonicalCase upper (canonicalCase upper s) = canonicalCase upper s.
Proof.
  revert upper. induction s as [|c s IH]; intros upper; [reflexivity|].
  cbn [canonicalCase]. cbv zeta.
  destruct (canonical_byte_stable upper c) as [Hstable _]. cbv zeta in Hstable.
  rewrite Hstable. f_equal. apply IH.
Qed.

Lemma canonicalCase_valid (s : string) (upper : bool) :
  stringForall validHeaderFieldByte (canonicalCase upper s) =
  stringForall validHeaderFieldByte s.
Proof.
  revert upper. induction s as [|c s IH]; intros upper; [reflexivity|].
  cbn [canonicalCase stringForall]. cbv zeta.
  destruct (canonical_byte_stable upper c) as [_ Hvalid]. cbv zeta in Hvalid.
  by rewrite Hvalid, IH.
Qed.

Lemma CanonicalMIMEHeaderKey_idempotent (s : string) :
  CanonicalMIMEHeaderKey (CanonicalMIMEHeaderKey s) = CanonicalMIMEHeaderKey s.
Proof.
  unfold CanonicalMIMEHeaderKey.
  destruct (stringForall validHeaderFieldByte s) eqn:Hvalid.
  - by rewrite canonicalCase_valid, Hvalid, canonicalCase_idempotent.
  - by rewrite Hvalid.
Qed.

Lemma prepare_keys_canonical req headers auth :
  (∀ key value, Header req !! key = Some value → CanonicalMIMEHeaderKey key = key) →
  ∀ key value,
    Header (prepare req headers auth) !! key = Some value →
    CanonicalMIMEHeaderKey key = key.
Proof.
  intros Hreq.
  assert (∀ key value,
            Header (map_fold (λ k v r, HeaderSet k v r) req headers) !! key
              = Some value →
            CanonicalMIMEHeaderKey key = key) as Hfold.
  { apply (map_fold_weak_ind
             (λ r (_ : gmap string string),
                ∀ key value, Header r !! key = Some value →
                             CanonicalMIMEHeaderKey key = key)); [exact Hreq|].
    intros i x m r _ IH key value. cbn [HeaderSet Header].
    destruct (decide (CanonicalMIMEHeaderKey i = key)) as [<-|Hne].
    - intros _. apply CanonicalMIMEHeaderKey_idempotent.
    - rewrite lookup_insert_ne by exact Hne. apply IH. }
  unfold prepare. destruct auth as [a|]; [|exact Hfold].
  intros key value. cbn [HeaderSet Header].
  destruct (decide (CanonicalMIMEHeaderKey "Authorization" = key)) as [<-|Hne].
  - intros _. apply CanonicalMIMEHeaderKey_idempotent.
  - rewrite lookup_insert_ne by exact Hne. apply Hfold.
Qed.

(** X18: whatever headers the caller passes, every header name of the
    request on the wire is in canonical form, and when an authorization is
    given the [Authorization] header is the one [doRequest] builds from it:
    a caller's own Authorization header, in any letter case, never reaches
    the wire. *)
Theorem wireRequest_header_names (url method body : string)
    (headers : gmap string string) (auth : option authDetails) :
  let req := wireRequest url method body headers auth in
  (∀ key value, Header req !! key = Some value →
                CanonicalMIMEHeaderKey key = key) ∧
  (∀ a key value,
      auth = Some a →
      Header req !! key = Some value →
      CanonicalMIMEHeaderKey key = "Authorization" →
      key = "Authorization" ∧ value = AuthType a +:+ " " +:+ Credential a) ∧
  (∀ a, auth = Some a →
        Header req !! "Authorization" = Some (AuthType a +:+ " " +:+ Credential a)).
Proof.
  intros req.
  assert (∀ key value, Header req !! key = Some value →
                       CanonicalMIMEHeaderKey key = key) as Hcanon.
  { apply prepare_keys_canonical. intros key value. cbn [Header].
    by rewrite lookup_empty. }
  split; [exact Hcanon|]. split.
  - intros a key value -> Hkey Hauth.
    rewrite (Hcanon key value Hkey) in Hauth. subst key.
    split; [reflexivity|].
    subst req. unfold wireRequest in Hkey.
    rewrite prepare_Authorization in Hkey. by injection Hkey.
  - intros a ->. apply prepare_Authorization.
Qed.

Lemma wireRequest_header_names_witness :
  let headers : gmap string string := {[ "authorization" := "Bearer forged" ]} in
  let req := wireRequest "https://api.plan.toggl.com/api/v5/me" "GET" "" headers
               (Some (bearerAuth "T0K")) in
  Header req !! "Authorization" = Some "Bearer T0K" ∧
  Header req !! "authorization" = None.
Proof.
  intros headers req.
  destruct (wireRequest_header_names "https://api.plan.toggl.com/api/v5/me"
              "GET" "" headers (Some (bearerAuth "T0K")))
    as (Hcanon & _ & Hauth).
  fold req in Hcanon, Hauth.
  split; [exact (Hauth (bearerAuth "T0K") eq_refl)|].
  destruct (Header req !! "authorization") as [value|] eqn:Hlow; [|reflexivity].
  discriminate (Hcanon "authorization" value Hlow).
Defined.

Lemma base64Char_alphabet (index : N) :
  (index < 64)%N → stringMem (base64Char index) encodeStd = true.
Proof.
  intros Hlt. unfold base64Char.
  assert (N.to_nat index < 64)%nat as Hnat by lia.
  generalize dependent (N.to_nat index). intros i Hi.
  do 64 (destruct i as [|i]; [reflexivity|]). lia.
Qed.

Lemma land_63_lt (n : N) : (N.land n 63 < 64)%N.
Proof.
  change 63%N with (N.ones 6). rewrite N.land_ones.
  apply N.mod_lt. discriminate.
Qed.

(** The characters base64 may produce. *)
Lemma EncodeToString_shape (src : string) :
  let good := λ c, stringMem c encodeStd || Ascii.eqb c "="%char in
  (stringForall good (EncodeToString src) = true ∧
   String.length (EncodeToString src) = (4 * ((String.length src + 2) / 3))%nat) ∧
  (∀ a, stringForall good (EncodeToString (String a src)) = true ∧
        String.length (EncodeToString (String a src)) =
          (4 * ((String.length (String a src) + 2) / 3))%nat) ∧
  (∀ a b, stringForall good (EncodeToString (String a (String b src))) = true ∧
          String.length (EncodeToString (String a (String b src))) =
            (4 * ((String.length (String a (String b src)) + 2) / 3))%nat).
Proof.
  intros good. induction src as [|c src (IH0 & IH1 & IH2)].
  - split; [by split|]. split.
    + intros a. cbn [EncodeToString stringForall String.length]. subst good.
      cbv beta. rewrite !base64Char_alphabet by apply land_63_lt. by split.
    + intros a b. cbn [EncodeToString stringForall String.length]. subst good.
      cbv beta. rewrite !base64Char_alphabet by apply land_63_lt. by split.
  - split; [apply IH1|]. split; [intros a; apply IH2|].
    intros a b. destruct IH0 as [Hgood Hlen].
    cbn [EncodeToString stringForall String.length]. cbv zeta.
    split.
    + subst good. cbv beta. rewrite !base64Char_alphabet by apply land_63_lt.
      cbn [orb andb]. exact Hgood.
    + rewrite Hlen.
      replace (S (S (S (String.length src))) + 2)%nat
        with (1 * 3 + (String.length src + 2))%nat by lia.
      rewrite Nat.div_add_l by discriminate. lia.
Qed.

Lemma string_length_append (s t : string) :
  String.length (s +:+ t) = (String.length s + String.length t)%nat.
Proof.
  induction s as [|c s IH]; [reflexivity|]. simpl. by rewrite IH.
Qed.

(** X19: the credential [getToken] sends after "Basic " is made only of
    characters of the base64 alphabet and '=', whatever bytes the client id
    and the client secret hold, and its length is four characters for every
    three bytes, rounded up, of the client id, a colon and the client
    secret. *)
Theorem tokenRequest_credential (pa : togglPlanApi) :
  ∃ credential : string,
    Header (tokenRequest pa) !! "Authorization" = Some ("Basic " +:+ credential) ∧
    stringForall (λ c, stringMem c encodeStd || Ascii.eqb c "="%char) credential
      = true ∧
    String.length credential =
      (4 * ((String.length (clientId pa) + String.length (clientSecret pa) + 3) / 3))%nat.
Proof.
  exists (EncodeToString (clientId pa +:+ ":" +:+ clientSecret pa)).
  split; [|split].
  - unfold tokenRequest, wireRequest. rewrite prepare_Authorization. reflexivity.
  - apply EncodeToString_shape.
  - destruct (EncodeToString_shape (clientId pa +:+ ":" +:+ clientSecret pa))
      as ((_ & Hlen) & _).
    rewrite Hlen, !string_length_append. cbn [String.length].
    do 2 f_equal. lia.
Qed.
